(** * Hacksters Portfolio API: a shallow embedding of [main.py] and [schemas.py]

    The handlers of [main.py] are functions in a state-and-exception monad
    over the store handle [db]; the pydantic models of [schemas.py] are
    records with their validators.  Python [str] values are UTF-8 byte
    strings: bytewise lexicographic order is code-point order, and slicing
    counts code points ([take_chars]). *)

From Stdlib Require Import ZArith Ascii String Sorting.Permutation Sorting.Sorted.
From stdpp Require Import base option list gmap strings pretty.

Local Open Scope string_scope.
Local Open Scope Z_scope.

(** ** Python strings *)

(** A UTF-8 continuation byte, [10xxxxxx]: it never starts a character. *)
Definition is_continuation (c : ascii) : bool :=
  let n := N_of_ascii c in ((128 <=? n) && (n <? 192))%N.

(** [len(s)]: the number of code points. *)
Fixpoint char_length (s : string) : nat :=
  match s with
  | EmptyString => O
  | String c s' => if is_continuation c then char_length s' else S (char_length s')
  end.

(** [s[:n]]: the first [n] code points. *)
Fixpoint take_chars (n : nat) (s : string) : string :=
  match s with
  | EmptyString => EmptyString
  | String c s' =>
      if is_continuation c then String c (take_chars n s')
      else match n with
           | O => EmptyString
           | S m => String c (take_chars m s')
           end
  end.

(** [a < b] on [str]. *)
Definition str_lt (a b : string) : bool := String.ltb a b.

(** [sep.join(l)]. *)
Fixpoint join (sep : string) (l : list string) : string :=
  match l with
  | [] => ""
  | [x] => x
  | x :: l' => x ++ sep ++ join sep l'
  end.

(** [a < b] on lists of [str]: at the first index where the items differ the
    items decide; a proper prefix is smaller. *)
Fixpoint strs_lt (a b : list string) : bool :=
  match a, b with
  | [], [] => false
  | [], _ :: _ => true
  | _ :: _, [] => false
  | x :: a', y :: b' => if String.eqb x y then strs_lt a' b' else str_lt x y
  end.

(** ** Values held by documents *)

(** [bson.ObjectId]: twelve bytes, kept as their 24 hexadecimal digits. *)
Record ObjectId := { oid_hex : string }.

Inductive value :=
| VNull
| VBool (b : bool)
| VInt (n : Z)
| VStr (s : string)
| VOid (o : ObjectId)
| VStrs (l : list string)
| VMap (m : list (string * string)).

(** A document is a Python [dict] with [str] keys. *)
Abbreviation doc := (gmap string value).

Definition type_name (v : value) : string :=
  match v with
  | VNull => "NoneType"
  | VBool _ => "bool"
  | VInt _ => "int"
  | VStr _ => "str"
  | VOid _ => "ObjectId"
  | VStrs _ => "list"
  | VMap _ => "dict"
  end.

(** ** Exceptions and the handler monad *)

Inductive exn :=
| HTTPException (status_code : Z) (detail : string)
| TypeError (msg : string)
| NotImplementedError (msg : string)
| Exception (msg : string).

(** [str(e)]. *)
Definition exn_str (e : exn) : string :=
  match e with
  | HTTPException c d => pretty c ++ ": " ++ d
  | TypeError m => m
  | NotImplementedError m => m
  | Exception m => m
  end.

Inductive outcome (A : Type) :=
| Ok (a : A)
| Raise (e : exn).
Arguments Ok {A} a.
Arguments Raise {A} e.

(** A computation over a mutable state [S] that returns or raises; what it
    wrote before raising stays written. *)
Definition M (S A : Type) : Type := S -> outcome A * S.

Definition raise {S A} (e : exn) : M S A := fun s => (Raise e, s).
Definition get {S} : M S S := fun s => (Ok s, s).
Definition put {S} (s : S) : M S unit := fun _ => (Ok tt, s).
Definition modify {S} (f : S -> S) : M S unit := fun s => (Ok tt, f s).
Definition lift {S A} (o : outcome A) : M S A := fun s => (o, s).
(** [try: m except Exception as e: h e]. *)
Definition try_except {S A} (m : M S A) (h : exn -> M S A) : M S A :=
  fun s => match m s with
           | (Ok a, s') => (Ok a, s')
           | (Raise e, s') => h e s'
           end.

#[global] Instance M_ret {S} : MRet (M S) := fun A a s => (Ok a, s).
#[global] Instance M_bind {S} : MBind (M S) :=
  fun A B k m s => match m s with
                   | (Ok a, s') => k a s'
                   | (Raise e, s') => (Raise e, s')
                   end.

(** [a < b] on two values: [str], numbers ([bool] is an [int]), [ObjectId]
    and lists are ordered within their kind; everything else raises. *)
Definition num_of (v : value) : option Z :=
  match v with
  | VBool b => Some (if b then 1 else 0)
  | VInt n => Some n
  | _ => None
  end.

Definition py_lt (a b : value) : outcome bool :=
  match a, b with
  | VStr x, VStr y => Ok (str_lt x y)
  | VOid x, VOid y => Ok (str_lt (oid_hex x) (oid_hex y))
  | VStrs x, VStrs y => Ok (strs_lt x y)
  | _, _ =>
      match num_of a, num_of b with
      | Some x, Some y => Ok (x <? y)
      | _, _ => Raise (TypeError ("'<' not supported between instances of '"
                                  ++ type_name a ++ "' and '" ++ type_name b ++ "'"))
      end
  end.

(** [sorted(l, key=key, reverse=True)]: descending and stable, deciding with
    [<] on the keys only.  [insert_desc x l] puts [x], which came before all
    of [l], in front of the first item whose key is not greater.  The result
    and the inputs that raise are those of Python's sort; which pair of keys
    a [TypeError] names follows the comparisons made here. *)
Fixpoint insert_desc {A} (key : A -> value) (x : A) (l : list A) : outcome (list A) :=
  match l with
  | [] => Ok [x]
  | y :: l' =>
      match py_lt (key x) (key y) with
      | Raise e => Raise e
      | Ok true =>
          match insert_desc key x l' with
          | Ok r => Ok (y :: r)
          | Raise e => Raise e
          end
      | Ok false => Ok (x :: y :: l')
      end
  end.

Fixpoint sorted_reverse {A} (key : A -> value) (l : list A) : outcome (list A) :=
  match l with
  | [] => Ok []
  | x :: l' =>
      match sorted_reverse key l' with
      | Ok r => insert_desc key x r
      | Raise e => Raise e
      end
  end.

(** ** Documents and their serialization ([main.py], Utility) *)

Section Serialization.

(** [repr] of a [str], the quoting Python applies to the items of a printed
    list or dict: a function of the language, kept as a parameter. *)
Context (py_repr : string -> string).

(** [str(v)]. *)
Definition py_str (v : value) : string :=
  match v with
  | VNull => "None"
  | VBool b => if b then "True" else "False"
  | VInt n => pretty n
  | VStr s => s
  | VOid o => oid_hex o
  | VStrs l => "[" ++ join ", " (map py_repr l) ++ "]"
  | VMap m => "{" ++ join ", " (map (fun kv => py_repr kv.1 ++ ": " ++ py_repr kv.2) m) ++ "}"
  end.

(** [to_serializable(doc)]: an empty [doc] is returned as it is; otherwise the
    copy loses ["_id"], if it has one, and gets ["id"]. *)
Definition to_serializable (d : doc) : doc :=
  if bool_decide (d = ∅) then d
  else match d !! "_id" with
       | Some v => <["id" := VStr (py_str v)]> (delete "_id" d)
       | None => d
       end.

End Serialization.

(** ** The store behind [db] *)

Definition hex_digit (n : N) : ascii :=
  match String.get (N.to_nat n) "0123456789abcdef" with
  | Some c => c
  | None => "0"%char
  end.

(** The [k] low hexadecimal digits of [n], most significant first. *)
Fixpoint hex_digits (k : nat) (n : N) : string :=
  match k with
  | O => ""
  | S k' => hex_digits k' (n / 16)%N ++ String (hex_digit (n mod 16)%N) ""
  end.

(** Modelled from the spec: the document store reached through [db], which
    [database.py] builds.  It holds the named collections, each in
    store-native order, numbers the identifiers it assigns, and when [fault]
    is set every operation on it raises with that message (a store that
    throws during a query). *)
Record Store := {
  collections : gmap string (list doc);
  next_oid : N;
  fault : option string
}.

(** Modelled from the spec: the handle [db] of [database.py], [None] when the
    connection is not configured. *)
Abbreviation db_handle := (option Store).

(** What [bool()] of a handle that exists raises. *)
Definition database_bool_message : string :=
  "Database objects do not implement truth value testing or bool(). Please compare with None instead: database is not None".

(** The truth test [if db].  [None] is false.  A handle that exists is the
    object [main.py] calls [list_collection_names], [count_documents] and
    [find_one] on, a pymongo [Database]: it defines no truth value, and
    testing it raises. *)
Definition truthy_db (db : db_handle) : outcome bool :=
  match db with
  | Some _ => Raise (NotImplementedError database_bool_message)
  | None => Ok false
  end.

Definition collection (st : Store) (name : string) : list doc :=
  default [] (collections st !! name).

Definition fresh_oid (st : Store) : ObjectId := {| oid_hex := hex_digits 24 (next_oid st) |}.

(** Every use of the store goes through [with_store]: no handle, or a store
    that throws. *)
Definition with_store {A} (k : Store -> M db_handle A) : M db_handle A :=
  db ← get;
  match db with
  | None => raise (Exception "Database not available")
  | Some st =>
      match fault st with
      | Some msg => raise (Exception msg)
      | None => k st
      end
  end.

(** The store after [data] is appended to a collection under the next
    identifier. *)
Definition store_insert (st : Store) (collection_name : string) (data : doc) : Store :=
  {| collections :=
       <[collection_name :=
           (collection st collection_name ++ [<["_id" := VOid (fresh_oid st)]> data])%list]>
         (collections st);
     next_oid := N.succ (next_oid st);
     fault := fault st |}.

(** Modelled from the spec: [create_document] of [database.py] persists the
    document in the named collection, assigns it a unique identifier and
    returns that identifier as a string; it fails with a storage error when
    the connection is unavailable. *)
Definition create_document (collection_name : string) (data : doc) : M db_handle string :=
  with_store (fun st =>
    put (Some (store_insert st collection_name data)) ;;
    mret (oid_hex (fresh_oid st))).

(** Modelled from the spec: [get_documents] of [database.py] returns every
    document of the collection in store-native order, and an empty list when
    the collection does not exist. *)
Definition get_documents (collection_name : string) : M db_handle (list doc) :=
  with_store (fun st => mret (collection st collection_name)).

(** [db.<name>.count_documents({})]. *)
Definition count_documents (name : string) : M db_handle Z :=
  with_store (fun st => mret (Z.of_nat (length (collection st name)))).

(** [db.<name>.find_one({})]: the first document, or [None]. *)
Definition find_one (name : string) : M db_handle (option doc) :=
  with_store (fun st => mret (head (collection st name))).

(** [db.list_collection_names()]. *)
Definition list_collection_names : M db_handle (list string) :=
  with_store (fun st => mret (map fst (map_to_list (collections st)))).

(** ** The schemas ([schemas.py]) *)

(** A parsed JSON body. *)
#[warnings="-register-all"]
Inductive json :=
| JNull
| JBool (b : bool)
| JInt (n : Z)
| JFloat (literal : string)
| JStr (s : string)
| JArr (l : list json)
| JObj (l : list (string * json)).

Abbreviation payload := (gmap string json).

(** One entry of a validation error: the offending field and the reason. *)
Abbreviation verr := (string * string)%type.

Inductive validated (A : Type) :=
| Valid (a : A)
| Invalid (errs : list verr).
Arguments Valid {A} a.
Arguments Invalid {A} errs.

(** Fields are validated one after the other and every error is reported. *)
Definition vapp {A B} (f : validated (A -> B)) (x : validated A) : validated B :=
  match f, x with
  | Valid g, Valid a => Valid (g a)
  | Valid _, Invalid e => Invalid e
  | Invalid e, Valid _ => Invalid e
  | Invalid e1, Invalid e2 => Invalid (e1 ++ e2)%list
  end.
Infix "<*>" := vapp (at level 50, left associativity).

Definition errors_of {A} (v : validated A) : list verr :=
  match v with Valid _ => [] | Invalid e => e end.

(** [EventType = Literal["win", "participated"]]. *)
Inductive EventType := win | participated.

Definition EventType_str (t : EventType) : string :=
  match t with win => "win" | participated => "participated" end.

Record Stats := {
  patents : Z;
  team_size : Z;
  achievements : Z
}.

Record Event := {
  title : string;
  date : string;
  venue : string;
  type : EventType;
  position : option string;
  description : option string;
  photos : list string
}.

Record TeamMember := {
  name : string;
  role : string;
  nickname : option string;
  bio : option string;
  skills : list string;
  email : option string;
  phone : option string;
  photo_url : option string;
  instagram : option string;
  linkedin : option string;
  github : option string
}.

Record ContactSubmission := {
  contact_name : string;
  contact_email : string;
  subject : string;
  message : string;
  company : option string
}.

Section Validation.

(** What the validation library does with an input of an [int] field that is
    not a JSON integer (it converts some strings and floats): the reason of
    the failure or the integer. *)
Context (lax_int : json -> string + Z).
(** The library's [HttpUrl]: the normalized URL, if the string is one. *)
Context (http_url : string -> option string).

(** [str = Field(...)]. *)
Definition required_str (field : string) (v : option json) : validated string :=
  match v with
  | None => Invalid [(field, "missing")]
  | Some (JStr s) => Valid s
  | Some _ => Invalid [(field, "string_type")]
  end.

(** [Optional[str] = Field(None)]. *)
Definition optional_str (field : string) (v : option json) : validated (option string) :=
  match v with
  | None | Some JNull => Valid None
  | Some (JStr s) => Valid (Some s)
  | Some _ => Invalid [(field, "string_type")]
  end.

(** [int = Field(0, ge=0)]: the default is taken as it is. *)
Definition int_ge0 (field : string) (v : option json) : validated Z :=
  match v with
  | None => Valid 0
  | Some j =>
      match (match j with JInt n => inr n | _ => lax_int j end) with
      | inl reason => Invalid [(field, reason)]
      | inr n => if 0 <=? n then Valid n else Invalid [(field, "greater_than_equal")]
      end
  end.

(** [EventType = Field(...)]. *)
Definition required_EventType (field : string) (v : option json) : validated EventType :=
  match v with
  | None => Invalid [(field, "missing")]
  | Some (JStr s) =>
      if String.eqb s "win" then Valid win
      else if String.eqb s "participated" then Valid participated
      else Invalid [(field, "literal_error")]
  | Some _ => Invalid [(field, "literal_error")]
  end.

Definition url_item (field : string) (j : json) : validated string :=
  match j with
  | JStr s =>
      match http_url s with
      | Some u => Valid u
      | None => Invalid [(field, "url_parsing")]
      end
  | _ => Invalid [(field, "url_type")]
  end.

(** [List[HttpUrl] = Field(default_factory=list)]. *)
Definition url_list (field : string) (v : option json) : validated (list string) :=
  match v with
  | None => Valid []
  | Some (JArr l) =>
      foldr (fun j acc => Valid cons <*> url_item field j <*> acc) (Valid []) l
  | Some _ => Invalid [(field, "list_type")]
  end.

(** [Stats.model_validate]. *)
Definition Stats_validate (p : payload) : validated Stats :=
  Valid Build_Stats
    <*> int_ge0 "patents" (p !! "patents")
    <*> int_ge0 "team_size" (p !! "team_size")
    <*> int_ge0 "achievements" (p !! "achievements").

(** [Event.model_validate]. *)
Definition Event_validate (p : payload) : validated Event :=
  Valid Build_Event
    <*> required_str "title" (p !! "title")
    <*> required_str "date" (p !! "date")
    <*> required_str "venue" (p !! "venue")
    <*> required_EventType "type" (p !! "type")
    <*> optional_str "position" (p !! "position")
    <*> optional_str "description" (p !! "description")
    <*> url_list "photos" (p !! "photos").

End Validation.

Definition opt_str (o : option string) : value :=
  match o with Some s => VStr s | None => VNull end.

(** [model_dump()] of each model. *)
Definition Stats_dump (s : Stats) : doc :=
  <["patents" := VInt (patents s)]>
  (<["team_size" := VInt (team_size s)]>
  (<["achievements" := VInt (achievements s)]> ∅)).

Definition Event_dump (e : Event) : doc :=
  <["title" := VStr (title e)]>
  (<["date" := VStr (date e)]>
  (<["venue" := VStr (venue e)]>
  (<["type" := VStr (EventType_str (type e))]>
  (<["position" := opt_str (position e)]>
  (<["description" := opt_str (description e)]>
  (<["photos" := VStrs (photos e)]> ∅)))))).

Definition TeamMember_dump (m : TeamMember) : doc :=
  <["name" := VStr (name m)]>
  (<["role" := VStr (role m)]>
  (<["nickname" := opt_str (nickname m)]>
  (<["bio" := opt_str (bio m)]>
  (<["skills" := VStrs (skills m)]>
  (<["email" := opt_str (email m)]>
  (<["phone" := opt_str (phone m)]>
  (<["photo_url" := opt_str (photo_url m)]>
  (<["instagram" := opt_str (instagram m)]>
  (<["linkedin" := opt_str (linkedin m)]>
  (<["github" := opt_str (github m)]> ∅)))))))))).

Definition ContactSubmission_dump (c : ContactSubmission) : doc :=
  <["name" := VStr (contact_name c)]>
  (<["email" := VStr (contact_email c)]>
  (<["subject" := VStr (subject c)]>
  (<["message" := VStr (message c)]>
  (<["company" := opt_str (company c)]> ∅)))).

(** ** The handlers ([main.py]) *)

(** What the framework answers: the handler's value, a validation error, or
    the exception the handler raised. *)
Inductive reply (B : Type) :=
| Reply (b : B)
| Unprocessable (errs : list verr)
| Failure (e : exn).
Arguments Reply {B} b.
Arguments Unprocessable {B} errs.
Arguments Failure {B} e.

(** A route with a body: the body is validated before the handler runs. *)
Definition endpoint {A B} (validate : payload -> validated A)
    (handler : A -> M db_handle B) (body : payload) (db : db_handle)
  : reply B * db_handle :=
  match validate body with
  | Invalid errs => (Unprocessable errs, db)
  | Valid a =>
      match handler a db with
      | (Ok b, db') => (Reply b, db')
      | (Raise e, db') => (Failure e, db')
      end
  end.

(** [os.getenv(name)] tested for truth. *)
Definition truthy_env (v : option string) : bool :=
  match v with
  | Some s => negb (String.eqb s "")
  | None => false
  end.

Definition set_item (k : string) (v : value) : M doc unit := modify (<[k := v]>).

Definition initial_response : doc :=
  <["backend" := VStr "✅ Running"]>
  (<["database" := VStr "❌ Not Available"]>
  (<["database_url" := VNull]>
  (<["database_name" := VNull]>
  (<["connection_status" := VStr "Not Connected"]>
  (<["collections" := VStrs []]> ∅))))).

(** [test_database()]: the state of the computation is the [response] dict. *)
Definition test_database_body (db : db_handle) (getenv : string -> option string)
  : M doc unit :=
  try_except
    (match db with
     | Some _ =>
         set_item "database" (VStr "✅ Available") ;;
         set_item "database_url"
           (VStr (if truthy_env (getenv "DATABASE_URL") then "✅ Set" else "❌ Not Set")) ;;
         set_item "database_name"
           (VStr (if truthy_env (getenv "DATABASE_NAME") then "✅ Set" else "❌ Not Set")) ;;
         try_except
           (collections ← lift (list_collection_names db).1;
            set_item "collections" (VStrs (take 10%nat collections)) ;;
            set_item "connection_status" (VStr "Connected") ;;
            set_item "database" (VStr "✅ Connected & Working"))
           (fun e =>
              set_item "database"
                (VStr ("⚠️ Connected but Error: " ++ take_chars 80 (exn_str e))))
     | None => set_item "database" (VStr "⚠️ Available but not initialized")
     end)
    (fun e => set_item "database" (VStr ("❌ Error: " ++ take_chars 80 (exn_str e)))).

Definition test_database (db : db_handle) (getenv : string -> option string)
  : outcome doc :=
  match test_database_body db getenv initial_response with
  | (Ok _, response) => Ok response
  | (Raise e, _) => Raise e
  end.

Definition default_organization : doc :=
  <["name" := VStr "HACKSTERS"]>
  (<["founded_year" := VInt 2019]>
  (<["mission" := VStr "Where ideas become reality."]>
  (<["socials" := VMap [("github", "https://github.com/");
                        ("linkedin", "https://linkedin.com/")]]> ∅))).

Definition default_stats : doc :=
  <["patents" := VInt 0]>
  (<["team_size" := VInt 8]>
  (<["achievements" := VInt 12]> ∅)).

(** [seed_minimal()]. *)
Definition seed_minimal : M db_handle doc :=
  db ← get;
  match db with
  | None => raise (HTTPException 500 "Database not configured")
  | Some _ =>
      let created := [] in
      n ← count_documents "organization";
      created ← (if n =? 0
                 then i ← create_document "organization" default_organization;
                      mret (created ++ [i])%list
                 else mret created);
      n ← count_documents "stats";
      created ← (if n =? 0
                 then i ← create_document "stats" default_stats;
                      mret (created ++ [i])%list
                 else mret created);
      mret (<["inserted" := VStrs created]> ∅)
  end.

(** [x if x else None] on a document that may be missing. *)
Definition truthy_doc (d : option doc) : bool :=
  match d with
  | Some d => negb (bool_decide (d = ∅))
  | None => false
  end.

Section Handlers.

Context (py_repr : string -> string).

(** [get_organization()]. *)
Definition get_organization : M db_handle (option doc) :=
  db ← get;
  present ← lift (truthy_db db);
  d ← (if present : bool then find_one "organization" else mret None);
  mret (if truthy_doc d then to_serializable py_repr <$> d else None).

(** [get_stats()]. *)
Definition get_stats : M db_handle (option doc) :=
  db ← get;
  present ← lift (truthy_db db);
  d ← (if present : bool then find_one "stats" else mret None);
  mret (if truthy_doc d then to_serializable py_repr <$> d else None).

(** The sort key of [list_events]: [x.get("date", "")]. *)
Definition date_key (x : doc) : value := default (VStr "") (x !! "date").

(** [list_events()]. *)
Definition list_events : M db_handle (list doc) :=
  db ← get;
  present ← lift (truthy_db db);
  docs ← (if present : bool then get_documents "event" else mret []);
  docs_sorted ← lift (sorted_reverse date_key docs);
  mret (to_serializable py_repr <$> docs_sorted).

(** [list_team()]. *)
Definition list_team : M db_handle (list doc) :=
  db ← get;
  present ← lift (truthy_db db);
  docs ← (if present : bool then get_documents "teammember" else mret []);
  mret (to_serializable py_repr <$> docs).

End Handlers.

(** [create_event(event)]. *)
Definition create_event (event : Event) : M db_handle doc :=
  inserted_id ← create_document "event" (Event_dump event);
  mret (<["id" := VStr inserted_id]> ∅).

(** [create_member(member)]. *)
Definition create_member (member : TeamMember) : M db_handle doc :=
  inserted_id ← create_document "teammember" (TeamMember_dump member);
  mret (<["id" := VStr inserted_id]> ∅).

(** [submit_contact(data)]. *)
Definition submit_contact (data : ContactSubmission) : M db_handle doc :=
  inserted_id ← create_document "contactsubmission" (ContactSubmission_dump data);
  mret (<["id" := VStr inserted_id]> (<["status" := VStr "received"]> ∅)).

(** [POST /timeline]. *)
Definition post_timeline (http_url : string -> option string) (body : payload)
    (db : db_handle) : reply doc * db_handle :=
  endpoint (Event_validate http_url) create_event body db.

(** ** Vocabulary of the statements *)

#[global] Instance ObjectId_eq_dec : EqDecision ObjectId.
Proof. solve_decision. Defined.

#[global] Instance value_eq_dec : EqDecision value.
Proof. solve_decision. Defined.

(** The string of a [str] value. *)
Definition str_of (v : value) : string :=
  match v with
  | VStr s => s
  | _ => ""
  end.

Definition is_str (v : value) : Prop := exists s, v = VStr s.

(** The [date] of a document as the string the sort compares: the field
    itself, and the empty string when the document has none. *)
Definition date_str (d : doc) : string :=
  match d !! "date" with
  | Some (VStr s) => s
  | _ => ""
  end.

(** A document whose [date] is a string, or that has no [date]. *)
Definition str_dated (d : doc) : Prop :=
  d !! "date" = None \/ exists s, d !! "date" = Some (VStr s).

(** [a] may stand before [b] in descending order of [date]. *)
Definition date_desc (a b : doc) : Prop := str_lt (date_str a) (date_str b) = false.

(** The identifier a stored document carries, as a string. *)
Definition doc_id (d : doc) : option string :=
  match d !! "_id" with
  | Some (VOid o) => Some (oid_hex o)
  | _ => None
  end.

(** The numeric fields of [Stats]. *)
Definition stats_fields : list string := ["patents"; "team_size"; "achievements"].

(** A store that answers. *)
Definition healthy (db : db_handle) (st : Store) : Prop :=
  db = Some st /\ fault st = None.

(** Every validator reports under the name of its own field. *)
Definition reports_as {A} (field : string) (v : validated A) : Prop :=
  Forall (fun e : verr => e.1 = field) (errors_of v).

(** ** The remaining routes and models *)

(** [read_root()]. *)
Definition read_root : doc := <["message" := VStr "Hacksters Portfolio Backend Running"]> ∅.

Section MemberValidation.

(** The library's [HttpUrl] and [EmailStr]: the normalized value, if the
    string is one. *)
Context (http_url : string -> option string) (email_str : string -> option string).

(** [Optional[HttpUrl] = None]. *)
Definition optional_url (field : string) (v : option json) : validated (option string) :=
  match v with
  | None | Some JNull => Valid None
  | Some j => Valid Some <*> url_item http_url field j
  end.

Definition email_item (field : string) (j : json) : validated string :=
  match j with
  | JStr s =>
      match email_str s with
      | Some e => Valid e
      | None => Invalid [(field, "value_error")]
      end
  | _ => Invalid [(field, "string_type")]
  end.

(** [EmailStr], required. *)
Definition required_email (field : string) (v : option json) : validated string :=
  match v with
  | None => Invalid [(field, "missing")]
  | Some j => email_item field j
  end.

(** [Optional[EmailStr] = Field(None)]. *)
Definition optional_email (field : string) (v : option json) : validated (option string) :=
  match v with
  | None | Some JNull => Valid None
  | Some j => Valid Some <*> email_item field j
  end.

Definition str_item (field : string) (j : json) : validated string :=
  match j with
  | JStr s => Valid s
  | _ => Invalid [(field, "string_type")]
  end.

(** [List[str] = Field(default_factory=list)]. *)
Definition str_list (field : string) (v : option json) : validated (list string) :=
  match v with
  | None => Valid []
  | Some (JArr l) =>
      foldr (fun j acc => Valid cons <*> str_item field j <*> acc) (Valid []) l
  | Some _ => Invalid [(field, "list_type")]
  end.

(** [TeamMember.model_validate]. *)
Definition TeamMember_validate (p : payload) : validated TeamMember :=
  Valid Build_TeamMember
    <*> required_str "name" (p !! "name")
    <*> required_str "role" (p !! "role")
    <*> optional_str "nickname" (p !! "nickname")
    <*> optional_str "bio" (p !! "bio")
    <*> str_list "skills" (p !! "skills")
    <*> optional_email "email" (p !! "email")
    <*> optional_str "phone" (p !! "phone")
    <*> optional_url "photo_url" (p !! "photo_url")
    <*> optional_url "instagram" (p !! "instagram")
    <*> optional_url "linkedin" (p !! "linkedin")
    <*> optional_url "github" (p !! "github").

(** [ContactSubmission.model_validate]. *)
Definition ContactSubmission_validate (p : payload) : validated ContactSubmission :=
  Valid Build_ContactSubmission
    <*> required_str "name" (p !! "name")
    <*> required_email "email" (p !! "email")
    <*> required_str "subject" (p !! "subject")
    <*> required_str "message" (p !! "message")
    <*> optional_str "company" (p !! "company").

(** [POST /team]. *)
Definition post_team (body : payload) (db : db_handle) : reply doc * db_handle :=
  endpoint TeamMember_validate create_member body db.

(** [POST /contact]. *)
Definition post_contact (body : payload) (db : db_handle) : reply doc * db_handle :=
  endpoint ContactSubmission_validate submit_contact body db.

End MemberValidation.

(** The JSON a client sends for a value of a dumped model. *)
Definition json_of (v : value) : json :=
  match v with
  | VNull => JNull
  | VBool b => JBool b
  | VInt n => JInt n
  | VStr s => JStr s
  | VOid o => JStr (oid_hex o)
  | VStrs l => JArr (JStr <$> l)
  | VMap m => JObj (prod_map id JStr <$> m)
  end.

(** The names of the fields of each model. *)
Definition event_fields : list string :=
  ["title"; "date"; "venue"; "type"; "position"; "description"; "photos"].

Definition event_required : list string := ["title"; "date"; "venue"; "type"].

(** The keys of the response of [test_database]. *)
Definition response_keys : gset string :=
  {["backend"; "database"; "database_url"; "database_name";
    "connection_status"; "collections"]}.

(** ** Sample data *)

Definition sample_oid : ObjectId := {| oid_hex := "65f1c0ffee0123456789abcd" |}.

Definition sample_org : doc :=
  <["_id" := VOid sample_oid]> (<["name" := VStr "HACKSTERS"]> ∅).

Definition event_doc (oid date : string) : doc :=
  <["_id" := VOid {| oid_hex := oid |}]> (<["date" := VStr date]> ∅).

Definition sample_events : list doc :=
  [event_doc "000000000000000000000000" "2023-09-01";
   event_doc "000000000000000000000001" "2023-11-01"].

Definition sample_store : Store :=
  {| collections := <["event" := sample_events]> ∅; next_oid := 2; fault := None |}.

Definition undated_events : list doc :=
  [<["_id" := VOid {| oid_hex := "000000000000000000000000" |}]> (<["title" := VStr "kickoff"]> ∅);
   event_doc "000000000000000000000001" "2023-09-01";
   event_doc "000000000000000000000002" "2023-09-01"].

Definition undated_store : Store :=
  {| collections := <["event" := undated_events]> ∅; next_oid := 3; fault := None |}.

Definition empty_store : Store := {| collections := ∅; next_oid := 0; fault := None |}.

Definition no_lax_int (j : json) : string + Z := inl "int_type".

Definition lose_body : payload :=
  <["title" := JStr "Hack Night"]> (<["type" := JStr "lose"]> ∅).

Definition win_body : payload :=
  <["title" := JStr "Hack Night"]> (<["type" := JStr "win"]> ∅).

Definition negative_patents : payload := <["patents" := JInt (-1)]> ∅.

Definition long_message : string :=
  "ServerSelectionTimeoutError: localhost:27017: [Errno 111] Connection refused, Timeout: 30s, Topology Description: <TopologyDescription id: 65f1c0>".

Definition faulty_store : Store :=
  {| collections := ∅; next_oid := 0; fault := Some long_message |}.

Definition sample_event : Event :=
  {| title := "Smart India Hackathon"; date := "2023-12-19"; venue := "Jaipur";
     type := win; position := Some "1st"; description := None;
     photos := ["https://example.com/a.jpg"] |}.

Definition sample_contact : ContactSubmission :=
  {| contact_name := "Asha"; contact_email := "asha@example.com";
     subject := "Collaboration"; message := "Hello"; company := None |}.

Definition env_flag (v : option string) : value :=
  VStr (if truthy_env v then "✅ Set" else "❌ Not Set").

Definition refused_store : Store :=
  {| collections := ∅; next_oid := 0; fault := Some "connection refused: café" |}.

Definition three_patents : payload := <["patents" := JInt 3]> ∅.

Definition has_at (s : string) : option string :=
  if bool_decide ("@"%char ∈ list_ascii_of_string s) then Some s else None.

Definition bad_email_body : payload :=
  <["name" := JStr "Ravi"]> (<["role" := JStr "Lead"]> (<["email" := JStr "ravi.example.com"]> ∅)).

Definition minimal_member_body : payload :=
  <["name" := JStr "Ravi"]> (<["role" := JStr "Lead"]> ∅).

Definition minimal_member : TeamMember :=
  {| name := "Ravi"; role := "Lead"; nickname := None; bio := None; skills := [];
     email := None; phone := None; photo_url := None; instagram := None;
     linkedin := None; github := None |}.

(** * Properties *)

(** ** The order on strings *)

Lemma ascii_compare_refl c : Ascii.compare c c = Eq.
Proof. unfold Ascii.compare. apply N.compare_refl. Qed.

Lemma ascii_compare_lt_trans a b c :
  Ascii.compare a b = Lt -> Ascii.compare b c = Lt -> Ascii.compare a c = Lt.
Proof. unfold Ascii.compare. rewrite !N.compare_lt_iff. lia. Qed.

Lemma string_compare_refl s : String.compare s s = Eq.
Proof. induction s as [|c s IH]; simpl; [done|]. by rewrite ascii_compare_refl. Qed.

Lemma string_compare_lt_trans a : forall b c,
  String.compare a b = Lt -> String.compare b c = Lt -> String.compare a c = Lt.
Proof.
  induction a as [|x a IH]; intros [|y b] [|z c]; simpl; try done.
  destruct (Ascii.compare x y) eqn:Hxy; try done.
  - apply Ascii.compare_eq_iff in Hxy as ->.
    destruct (Ascii.compare y z); try done. apply IH.
  - destruct (Ascii.compare y z) eqn:Hyz; try done.
    + apply Ascii.compare_eq_iff in Hyz as <-. by rewrite Hxy.
    + by rewrite (ascii_compare_lt_trans _ _ _ Hxy Hyz).
Qed.

Lemma str_lt_irrefl s : str_lt s s = false.
Proof. unfold str_lt, String.ltb. by rewrite string_compare_refl. Qed.

Lemma str_lt_asym a b : str_lt a b = true -> str_lt b a = false.
Proof.
  unfold str_lt, String.ltb. rewrite (String.compare_antisym a b).
  by destruct (String.compare b a).
Qed.

(** "Not smaller" is transitive: the descending order is a preorder. *)
Lemma str_ge_trans a b c :
  str_lt a b = false -> str_lt b c = false -> str_lt a c = false.
Proof.
  unfold str_lt, String.ltb. intros Hab Hbc.
  destruct (String.compare a c) eqn:Hac; try done.
  destruct (String.compare a b) eqn:Hab'; try done.
  - apply String.compare_eq_iff in Hab' as ->. by rewrite Hac in Hbc.
  - assert (String.compare b a = Lt) as Hba.
    { rewrite String.compare_antisym, Hab'. done. }
    by rewrite (string_compare_lt_trans _ _ _ Hba Hac) in Hbc.
Qed.

Lemma str_lt_empty_l s : s <> "" -> str_lt "" s = true.
Proof. by destruct s. Qed.

(** ** Slicing *)

Lemma char_length_take_chars n : forall s, (char_length (take_chars n s) <= n)%nat.
Proof.
  induction n as [|n IH]; intros s.
  - induction s as [|c s IHs]; simpl; [lia|].
    destruct (is_continuation c) eqn:Hc; simpl; [|lia]. by rewrite Hc.
  - induction s as [|c s IHs]; simpl; [lia|].
    destruct (is_continuation c) eqn:Hc; simpl; rewrite Hc; [done|].
    specialize (IH s). lia.
Qed.

Lemma take_chars_prefix n : forall s, exists rest, s = take_chars n s ++ rest.
Proof.
  induction n as [|n IH]; intros s.
  - induction s as [|c s [rest IHs]]; simpl; [by exists ""|].
    destruct (is_continuation c).
    + exists rest. change (String c s = String c (take_chars 0 s ++ rest)). by f_equal.
    + by exists (String c s).
  - induction s as [|c s [rest IHs]]; simpl; [by exists ""|].
    destruct (is_continuation c).
    + exists rest. change (String c s = String c (take_chars (S n) s ++ rest)). by f_equal.
    + destruct (IH s) as [rest' Hr]. exists rest'.
      change (String c s = String c (take_chars n s ++ rest')). by f_equal.
Qed.

(** ** [sorted(..., reverse=True)] on [str] keys *)

Section Sorting.

Context {A : Type} (key : A -> value).

Let desc (a b : A) : Prop := str_lt (str_of (key a)) (str_of (key b)) = false.
Local Abbreviation same k := (fun a => key a = k).

Lemma insert_desc_str x l :
  is_str (key x) -> Forall (fun y => is_str (key y)) l ->
  exists r, insert_desc key x l = Ok r
    /\ r ≡ₚ x :: l
    /\ (StronglySorted desc l -> StronglySorted desc r)
    /\ (forall k, filter (same k) r = filter (same k) (x :: l)).
Proof.
  intros [sx Hx] Hl. induction Hl as [|y l [sy Hy] Hl IH].
  - exists [x]. repeat split; try done. intros _. repeat constructor.
  - destruct IH as (r & Hr & Hperm & Hsort & Hstab). simpl.
    rewrite Hx, Hy. simpl. destruct (str_lt sx sy) eqn:Hlt.
    + rewrite Hr. exists (y :: r). split; [done|]. split; [|split].
      * rewrite Hperm. apply perm_swap.
      * intros Hs. apply StronglySorted_inv in Hs as [Hs Hall].
        constructor; [by apply Hsort|].
        rewrite Hperm. constructor; [|done].
        unfold desc. rewrite Hx, Hy. simpl. by apply str_lt_asym.
      * intros k. rewrite !filter_cons, Hstab, filter_cons.
        destruct (decide (key y = k)) as [<-|]; [|done].
        destruct (decide (key x = key y)) as [Heq|]; [|done].
        rewrite Hx, Hy in Heq. injection Heq as ->.
        by rewrite str_lt_irrefl in Hlt.
    + exists (x :: y :: l). split; [done|]. split; [done|]. split; [|done].
      intros Hs. constructor; [done|].
      apply StronglySorted_inv in Hs as [Hs Hall].
      assert (desc x y) as Hxy by (unfold desc; by rewrite Hx, Hy).
      constructor; [done|].
      eapply Forall_impl; [exact Hall|]. intros z Hz.
      unfold desc in *. by eapply str_ge_trans.
Qed.

Lemma sorted_reverse_str l :
  Forall (fun y => is_str (key y)) l ->
  exists r, sorted_reverse key l = Ok r
    /\ r ≡ₚ l
    /\ StronglySorted desc r
    /\ (forall k, filter (same k) r = filter (same k) l).
Proof.
  induction 1 as [|x l Hx Hl IH].
  - exists []. repeat split; try done. constructor.
  - destruct IH as (r & Hr & Hperm & Hsort & Hstab). simpl. rewrite Hr.
    destruct (insert_desc_str x r) as (r' & Hr' & Hperm' & Hsort' & Hstab'); [done| |].
    { by rewrite Hperm. }
    exists r'. split; [done|]. split; [|split].
    + by rewrite Hperm', Hperm.
    + by apply Hsort'.
    + intros k. by rewrite Hstab', !filter_cons, Hstab.
Qed.

End Sorting.

(** In a strongly sorted list the relation holds between any earlier and any
    later item. *)
Lemma StronglySorted_lookup {A} (R : A -> A -> Prop) (l : list A) :
  StronglySorted R l ->
  forall i j a b, (i < j)%nat -> l !! i = Some a -> l !! j = Some b -> R a b.
Proof.
  induction 1 as [|x l Hs IH Hall]; intros i j a b Hij Hi Hj; [done|].
  destruct j as [|j]; [lia|]. simpl in Hj.
  destruct i as [|i]; simpl in Hi.
  - injection Hi as <-. rewrite Forall_forall in Hall. apply Hall.
    by eapply list_elem_of_lookup_2.
  - eapply (IH i j); [lia|done..].
Qed.

Lemma StronglySorted_weaken {A} (R R' : A -> A -> Prop) (l : list A) :
  (forall a b, R a b -> R' a b) -> StronglySorted R l -> StronglySorted R' l.
Proof.
  intros HR. induction 1 as [|x l Hs IH Hall]; constructor; [done|].
  eapply Forall_impl; [exact Hall|]. intros b. apply HR.
Qed.

Lemma filter_Forall_iff {A} (P Q : A -> Prop) `{!forall a, Decision (P a)}
    `{!forall a, Decision (Q a)} (l : list A) :
  Forall (fun a => P a <-> Q a) l -> filter P l = filter Q l.
Proof.
  induction 1 as [|a l Ha Hl IH]; [done|]. rewrite !filter_cons, IH.
  destruct (decide (P a)), (decide (Q a)); tauto.
Qed.

(** ** Running the handlers *)

Ltac run_handler :=
  cbv beta iota delta [mbind mret M_bind M_ret get put raise lift modify
                       try_except with_store truthy_db].

Section HandlerFacts.

Context (py_repr : string -> string).

Lemma to_serializable_other (d : doc) (k : string) :
  k <> "_id" -> k <> "id" -> to_serializable py_repr d !! k = d !! k.
Proof.
  intros H1 H2. unfold to_serializable. case_bool_decide; [done|].
  destruct (d !! "_id"); [|done].
  rewrite lookup_insert_ne by done. by rewrite lookup_delete_ne.
Qed.

Lemma date_key_str_dated (d : doc) : str_dated d -> is_str (date_key d).
Proof.
  unfold date_key. intros [->|[s ->]]; simpl; by eexists.
Qed.

Lemma date_str_key (d : doc) : str_of (date_key d) = date_str d.
Proof. unfold date_key, date_str. by destruct (d !! "date") as [[]|]. Qed.

Lemma date_key_eq_iff (d : doc) (s : string) :
  str_dated d -> date_key d = VStr s <-> date_str d = s.
Proof.
  unfold date_key, date_str. intros [->|[s' ->]]; simpl; split; congruence.
Qed.

(** What the sort of [list_events] gives on documents dated by strings: the
    documents in descending order of [date], those of equal date in the order
    they came in. *)
Lemma sorted_events_str_dated (docs : list doc) :
  Forall str_dated docs ->
  exists r,
    sorted_reverse date_key docs = Ok r
    /\ r ≡ₚ docs
    /\ StronglySorted date_desc r
    /\ (forall s, filter (fun d => date_str d = s) r
                  = filter (fun d => date_str d = s) docs).
Proof.
  intros Hdocs.
  destruct (sorted_reverse_str date_key docs) as (r & Hr & Hperm & Hsort & Hstab).
  { eapply Forall_impl; [exact Hdocs|]. apply date_key_str_dated. }
  exists r. split; [done|]. split; [done|]. split.
  - eapply StronglySorted_weaken; [|exact Hsort].
    intros a b Hab. unfold date_desc. by rewrite <- !date_str_key.
  - intros s.
    rewrite (filter_Forall_iff _ (fun d => date_key d = VStr s) r).
    2:{ rewrite Hperm. eapply Forall_impl; [exact Hdocs|]. intros d Hd. simpl.
        symmetry. by apply date_key_eq_iff. }
    rewrite Hstab. apply filter_Forall_iff.
    eapply Forall_impl; [exact Hdocs|]. intros d Hd. by apply date_key_eq_iff.
Qed.

(** On a handle that exists each read raises at its truth test, before it
    reaches the store. *)
Lemma list_events_present (st : Store) :
  list_events py_repr (Some st)
  = (Raise (NotImplementedError database_bool_message), Some st).
Proof. reflexivity. Qed.

Lemma get_organization_present (st : Store) :
  get_organization py_repr (Some st)
  = (Raise (NotImplementedError database_bool_message), Some st).
Proof. reflexivity. Qed.

End HandlerFacts.

(** ** Serialization of stored documents *)

(** C5: for a document retrieved from storage that holds the internal
    identifier ["_id"] (so it is not empty), [to_serializable] removes
    ["_id"], adds ["id"] with the string form of the identifier, and leaves
    the value of every other field as it was. *)
Theorem to_serializable_renames_id (py_repr : string -> string) (d : doc) (v : value) :
  d <> ∅ ->
  d !! "_id" = Some v ->
  to_serializable py_repr d !! "_id" = None
  /\ to_serializable py_repr d !! "id" = Some (VStr (py_str py_repr v))
  /\ forall k, k <> "_id" -> k <> "id" -> to_serializable py_repr d !! k = d !! k.
Proof.
  intros Hne Hid. split; [|split].
  - unfold to_serializable. rewrite bool_decide_eq_false_2 by done. rewrite Hid.
    rewrite lookup_insert_ne by done. apply lookup_delete_eq.
  - unfold to_serializable. rewrite bool_decide_eq_false_2 by done. rewrite Hid.
    apply lookup_insert_eq.
  - intros k. apply to_serializable_other.
Qed.

Lemma to_serializable_renames_id_witness :
  sample_org <> ∅
  /\ sample_org !! "_id" = Some (VOid sample_oid)
  /\ to_serializable id sample_org !! "_id" = None
  /\ to_serializable id sample_org !! "id" = Some (VStr "65f1c0ffee0123456789abcd")
  /\ to_serializable id sample_org !! "name" = Some (VStr "HACKSTERS").
Proof.
  assert (sample_org <> ∅) as Hne.
  { intros H. vm_compute in H. discriminate H. }
  assert (sample_org !! "_id" = Some (VOid sample_oid)) as Hid by reflexivity.
  destruct (to_serializable_renames_id id sample_org (VOid sample_oid) Hne Hid)
    as (H1 & H2 & H3).
  split; [exact Hne|]. split; [exact Hid|]. split; [exact H1|]. split; [exact H2|].
  rewrite H3; [reflexivity|discriminate|discriminate].
Defined.

(** ** The timeline *)

(** C2: [GET /timeline] is meant to return the stored Event documents
    sorted by [date], descending; on every handle that exists it raises
    instead, at the truth test [if db], before any document is fetched or
    sorted: for the store holding the events dated ["2023-09-01"] and
    ["2023-11-01"], as for any other, no sorted list is returned. *)
Theorem list_events_raises_on_present_handle (py_repr : string -> string) (st : Store) :
  list_events py_repr (Some st)
  = (Raise (NotImplementedError database_bool_message), Some st)
  /\ (forall res, list_events py_repr (Some st) <> (Ok res, Some st)).
Proof.
  rewrite list_events_present. split; [done|]. by intros res.
Qed.

Lemma sample_store_healthy : healthy (Some sample_store) sample_store.
Proof. split; reflexivity. Defined.

Lemma sample_events_str_dated : Forall str_dated sample_events.
Proof.
  apply Forall_cons_2; [right; eexists; reflexivity|].
  apply Forall_cons_2; [right; eexists; reflexivity|].
  apply Forall_nil_2.
Defined.

(** C10: in [GET /timeline] a stored event without a [date] is meant to be
    sorted under the empty string, after the events dated by a non-empty
    string, equal keys keeping the order of the store.  The sort does that on
    the events of [undated_store]; the handler, run on that store, raises at
    the truth test [if db] and returns no list. *)
Theorem list_events_undated_store_raises (py_repr : string -> string) :
  list_events py_repr (Some undated_store)
  = (Raise (NotImplementedError database_bool_message), Some undated_store)
  /\ sorted_reverse date_key undated_events
     = Ok [event_doc "000000000000000000000001" "2023-09-01";
           event_doc "000000000000000000000002" "2023-09-01";
           <["_id" := VOid {| oid_hex := "000000000000000000000000" |}]>
             (<["title" := VStr "kickoff"]> ∅)].
Proof.
  split; [apply list_events_present|]. vm_compute. reflexivity.
Qed.

Lemma undated_events_str_dated : Forall str_dated undated_events.
Proof.
  apply Forall_cons_2; [left; reflexivity|].
  apply Forall_cons_2; [right; eexists; reflexivity|].
  apply Forall_cons_2; [right; eexists; reflexivity|].
  apply Forall_nil_2.
Defined.

(** ** An absent store *)

(** C1: when [db] is [None] every write fails and nothing is persisted:
    [POST /seed] raises the 500 "Database not configured", and
    [POST /timeline], [POST /team] and [POST /contact] raise the storage
    error of [create_document]; whatever its body, [POST /timeline] gives no
    successful reply. *)
Theorem writes_fail_without_store :
  seed_minimal None = (Raise (HTTPException 500 "Database not configured"), None)
  /\ (forall event, exists msg, create_event event None = (Raise (Exception msg), None))
  /\ (forall member, exists msg, create_member member None = (Raise (Exception msg), None))
  /\ (forall data, exists msg, submit_contact data None = (Raise (Exception msg), None))
  /\ (forall http_url body,
        (exists errs, post_timeline http_url body None = (Unprocessable errs, None))
        \/ (exists msg, post_timeline http_url body None = (Failure (Exception msg), None))).
Proof.
  split; [reflexivity|].
  split; [intros; eexists; reflexivity|].
  split; [intros; eexists; reflexivity|].
  split; [intros; eexists; reflexivity|].
  intros http_url body. unfold post_timeline, endpoint.
  destruct (Event_validate http_url body) as [event|errs].
  - right. eexists. reflexivity.
  - left. by eexists.
Qed.

(** C6: when [db] is [None] the reads degrade: [GET /content/organization]
    and [GET /content/stats] return null, [GET /timeline] and [GET /team]
    return empty lists.  With a handle that exists
    [GET /content/organization] is meant to return null when no organization
    document is stored; it raises instead, at the truth test [if db],
    whatever the store holds. *)
Theorem get_organization_raises_on_present_handle (py_repr : string -> string) :
  get_organization py_repr None = (Ok None, None)
  /\ get_stats py_repr None = (Ok None, None)
  /\ list_events py_repr None = (Ok [], None)
  /\ list_team py_repr None = (Ok [], None)
  /\ (forall st,
        get_organization py_repr (Some st)
        = (Raise (NotImplementedError database_bool_message), Some st))
  /\ collection empty_store "organization" = []
  /\ get_organization py_repr (Some empty_store) <> (Ok None, Some empty_store).
Proof.
  repeat (split; [reflexivity|]). by rewrite get_organization_present.
Qed.

(** ** Seeding *)

Lemma create_document_run (st : Store) (name : string) (data : doc) :
  fault st = None ->
  create_document name data (Some st)
  = (Ok (oid_hex (fresh_oid st)), Some (store_insert st name data)).
Proof. intros Hf. unfold create_document. run_handler. by rewrite Hf. Qed.

Lemma count_documents_run (st : Store) (name : string) :
  fault st = None ->
  count_documents name (Some st) = (Ok (Z.of_nat (length (collection st name))), Some st).
Proof. intros Hf. unfold count_documents. run_handler. by rewrite Hf. Qed.

Lemma collection_store_insert (st : Store) (name name' : string) (data : doc) :
  collection (store_insert st name data) name'
  = if decide (name = name')
    then (collection st name ++ [<["_id" := VOid (fresh_oid st)]> data])%list
    else collection st name'.
Proof.
  unfold collection at 1. simpl. rewrite lookup_insert.
  destruct (decide (name = name')) as [->|]; done.
Qed.

Lemma count_zero_iff {A} (l : list A) : (Z.of_nat (length l) =? 0) = true <-> l = [].
Proof. rewrite Z.eqb_eq. destruct l; simpl; [done|]. split; [lia|done]. Qed.

Lemma count_nonzero {A} (l : list A) : l <> [] -> (Z.of_nat (length l) =? 0) = false.
Proof. intros Hl. apply Z.eqb_neq. destruct l; simpl; [done|lia]. Qed.

Lemma doc_id_stored (o : ObjectId) (data : doc) :
  doc_id (<["_id" := VOid o]> data) = Some (oid_hex o).
Proof. unfold doc_id. by rewrite lookup_insert_eq. Qed.

(** With both collections occupied [seed_minimal] writes nothing. *)
Lemma seed_minimal_occupied (st : Store) :
  fault st = None ->
  collection st "organization" <> [] ->
  collection st "stats" <> [] ->
  seed_minimal (Some st) = (Ok (<["inserted" := VStrs []]> ∅), Some st).
Proof.
  intros Hf Horg Hstats. unfold seed_minimal. run_handler.
  rewrite count_documents_run by done. rewrite (count_nonzero _ Horg).
  rewrite count_documents_run by done. by rewrite (count_nonzero _ Hstats).
Qed.

(** C4: on a store that answers, [POST /seed] appends the default
    Organization document exactly when the organization collection is empty
    and the default Stats document exactly when the stats collection is empty,
    touches no other collection, and returns the identifiers of just the
    documents it inserted; run again on the resulting store, it inserts
    nothing. *)
Theorem seed_minimal_inserts_when_empty (db : db_handle) (st : Store) :
  healthy db st ->
  exists st' ins_org ins_stats,
    seed_minimal db
    = (Ok (<["inserted" := VStrs (omap doc_id (ins_org ++ ins_stats)%list)]> ∅), Some st')
    /\ healthy (Some st') st'
    /\ collection st' "organization" = (collection st "organization" ++ ins_org)%list
    /\ collection st' "stats" = (collection st "stats" ++ ins_stats)%list
    /\ (forall name, name <> "organization" -> name <> "stats" ->
          collection st' name = collection st name)
    /\ (if decide (collection st "organization" = [])
        then exists o, ins_org = [<["_id" := VOid o]> default_organization]
        else ins_org = [])
    /\ (if decide (collection st "stats" = [])
        then exists o, ins_stats = [<["_id" := VOid o]> default_stats]
        else ins_stats = [])
    /\ seed_minimal (Some st') = (Ok (<["inserted" := VStrs []]> ∅), Some st').
Proof.
  intros [-> Hf].
  destruct (decide (collection st "organization" = [])) as [Horg|Horg];
    destruct (decide (collection st "stats" = [])) as [Hstats|Hstats].
  - set (st1 := store_insert st "organization" default_organization).
    set (st2 := store_insert st1 "stats" default_stats).
    assert (collection st1 "stats" = []) as Hstats1.
    { unfold st1. rewrite collection_store_insert. by rewrite decide_False. }
    exists st2, [<["_id" := VOid (fresh_oid st)]> default_organization],
      [<["_id" := VOid (fresh_oid st1)]> default_stats].
    split; [|split; [|split; [|split; [|split; [|split; [|split]]]]]].
    + unfold seed_minimal. run_handler.
      rewrite count_documents_run by done.
      rewrite (proj2 (count_zero_iff _) Horg).
      rewrite create_document_run by done. fold st1.
      rewrite count_documents_run by done.
      rewrite (proj2 (count_zero_iff _) Hstats1).
      rewrite create_document_run by done. fold st2.
      simpl. by rewrite !doc_id_stored.
    + by split.
    + unfold st2, st1. rewrite !collection_store_insert.
      rewrite decide_False by done. by rewrite decide_True.
    + unfold st2. rewrite collection_store_insert, decide_True by done.
      by rewrite Hstats1, Hstats.
    + intros name H1 H2. unfold st2, st1. rewrite !collection_store_insert.
      by rewrite !decide_False.
    + by eexists.
    + by eexists.
    + apply seed_minimal_occupied; [done|..].
      * unfold st2, st1. rewrite !collection_store_insert.
        rewrite decide_False by done. rewrite decide_True by done.
        by destruct (collection st "organization").
      * unfold st2. rewrite collection_store_insert, decide_True by done.
        by destruct (collection st1 "stats").
  - set (st1 := store_insert st "organization" default_organization).
    assert (collection st1 "stats" = collection st "stats") as Hstats1.
    { unfold st1. rewrite collection_store_insert. by rewrite decide_False. }
    exists st1, [<["_id" := VOid (fresh_oid st)]> default_organization], [].
    split; [|split; [|split; [|split; [|split; [|split; [|split]]]]]].
    + unfold seed_minimal. run_handler.
      rewrite count_documents_run by done.
      rewrite (proj2 (count_zero_iff _) Horg).
      rewrite create_document_run by done. fold st1.
      rewrite count_documents_run by done. rewrite Hstats1.
      rewrite (count_nonzero _ Hstats).
      simpl. by rewrite !doc_id_stored.
    + by split.
    + unfold st1. by rewrite collection_store_insert, decide_True.
    + by rewrite Hstats1, app_nil_r.
    + intros name H1 H2. unfold st1. rewrite collection_store_insert.
      by rewrite decide_False.
    + by eexists.
    + done.
    + apply seed_minimal_occupied; [done|..].
      * unfold st1. rewrite collection_store_insert, decide_True by done.
        by destruct (collection st "organization").
      * by rewrite Hstats1.
  - set (st1 := store_insert st "stats" default_stats).
    assert (collection st1 "organization" = collection st "organization") as Horg1.
    { unfold st1. rewrite collection_store_insert. by rewrite decide_False. }
    exists st1, [], [<["_id" := VOid (fresh_oid st)]> default_stats].
    split; [|split; [|split; [|split; [|split; [|split; [|split]]]]]].
    + unfold seed_minimal. run_handler.
      rewrite count_documents_run by done. rewrite (count_nonzero _ Horg).
      rewrite count_documents_run by done.
      rewrite (proj2 (count_zero_iff _) Hstats).
      rewrite create_document_run by done. fold st1.
      simpl. by rewrite !doc_id_stored.
    + by split.
    + by rewrite Horg1, app_nil_r.
    + unfold st1. by rewrite collection_store_insert, decide_True.
    + intros name H1 H2. unfold st1. rewrite collection_store_insert.
      by rewrite decide_False.
    + done.
    + by eexists.
    + apply seed_minimal_occupied; [done|..].
      * by rewrite Horg1.
      * unfold st1. rewrite collection_store_insert, decide_True by done.
        by destruct (collection st "stats").
  - exists st, [], [].
    split; [|split; [|split; [|split; [|split; [|split; [|split]]]]]]; try done.
    + by apply seed_minimal_occupied.
    + by rewrite app_nil_r.
    + by rewrite app_nil_r.
    + by apply seed_minimal_occupied.
Qed.

Lemma seed_minimal_inserts_when_empty_witness :
  healthy (Some empty_store) empty_store
  /\ exists st' ins_org ins_stats,
      seed_minimal (Some empty_store)
      = (Ok (<["inserted" := VStrs (omap doc_id (ins_org ++ ins_stats)%list)]> ∅), Some st')
      /\ healthy (Some st') st'
      /\ collection st' "organization" = (collection empty_store "organization" ++ ins_org)%list
      /\ collection st' "stats" = (collection empty_store "stats" ++ ins_stats)%list
      /\ (forall name, name <> "organization" -> name <> "stats" ->
            collection st' name = collection empty_store name)
      /\ (if decide (collection empty_store "organization" = [])
          then exists o, ins_org = [<["_id" := VOid o]> default_organization]
          else ins_org = [])
      /\ (if decide (collection empty_store "stats" = [])
          then exists o, ins_stats = [<["_id" := VOid o]> default_stats]
          else ins_stats = [])
      /\ seed_minimal (Some st') = (Ok (<["inserted" := VStrs []]> ∅), Some st').
Proof.
  assert (healthy (Some empty_store) empty_store) as Hdb by (split; reflexivity).
  split; [exact Hdb|].
  exact (seed_minimal_inserts_when_empty (Some empty_store) empty_store Hdb).
Defined.

(** ** Validation *)

Lemma errors_of_vapp {A B} (f : validated (A -> B)) (x : validated A) :
  errors_of (f <*> x) = (errors_of f ++ errors_of x)%list.
Proof. destruct f, x; simpl; by rewrite ?app_nil_r. Qed.

Lemma errors_of_nil_valid {A} (v : validated A) :
  (exists e, e ∈ errors_of v) -> exists errs, v = Invalid errs.
Proof. destruct v as [a|errs]; [|by eexists]. intros [e He]. by apply elem_of_nil in He. Qed.

Section ValidationFacts.

Context (lax_int : json -> string + Z) (http_url : string -> option string).

Lemma required_str_reports f v : reports_as f (required_str f v).
Proof. unfold reports_as. destruct v as [[]|]; simpl; repeat constructor. Qed.

Lemma optional_str_reports f v : reports_as f (optional_str f v).
Proof. unfold reports_as. destruct v as [[]|]; simpl; repeat constructor. Qed.

Lemma int_ge0_reports f v : reports_as f (int_ge0 lax_int f v).
Proof.
  unfold reports_as, int_ge0. destruct v as [j|]; [|constructor].
  destruct (match j with JInt n => inr n | _ => lax_int j end) as [r|n];
    [repeat constructor|].
  destruct (0 <=? n); simpl; repeat constructor.
Qed.

Lemma required_EventType_reports f v : reports_as f (required_EventType f v).
Proof.
  unfold reports_as. destruct v as [[]|]; simpl; repeat constructor.
  destruct (String.eqb s "win"); [constructor|].
  destruct (String.eqb s "participated"); simpl; repeat constructor.
Qed.

Lemma url_item_reports f j : reports_as f (url_item http_url f j).
Proof.
  unfold reports_as. destruct j; simpl; repeat constructor.
  destruct (http_url s); simpl; repeat constructor.
Qed.

Lemma url_list_reports f v : reports_as f (url_list http_url f v).
Proof.
  unfold reports_as. destruct v as [[]|]; simpl; repeat constructor.
  induction l as [|j l IH]; simpl; [constructor|].
  rewrite errors_of_vapp. apply Forall_app. split; [|done].
  pose proof (url_item_reports f j) as Hj. unfold reports_as in Hj.
  by destruct (url_item http_url f j).
Qed.

Lemma reports_as_other {A} f g (v : validated A) r :
  reports_as f v -> f <> g -> (g, r) ∉ errors_of v.
Proof.
  unfold reports_as. rewrite Forall_forall. intros Hv Hne Hin.
  apply Hv in Hin. simpl in Hin. congruence.
Qed.

Lemma Event_validate_errors (p : payload) :
  errors_of (Event_validate http_url p)
  = (errors_of (required_str "title" (p !! "title"))
     ++ errors_of (required_str "date" (p !! "date"))
     ++ errors_of (required_str "venue" (p !! "venue"))
     ++ errors_of (required_EventType "type" (p !! "type"))
     ++ errors_of (optional_str "position" (p !! "position"))
     ++ errors_of (optional_str "description" (p !! "description"))
     ++ errors_of (url_list http_url "photos" (p !! "photos")))%list.
Proof. unfold Event_validate. rewrite !errors_of_vapp. simpl. by rewrite <- !app_assoc. Qed.

Lemma Stats_validate_errors (p : payload) :
  errors_of (Stats_validate lax_int p)
  = (errors_of (int_ge0 lax_int "patents" (p !! "patents"))
     ++ errors_of (int_ge0 lax_int "team_size" (p !! "team_size"))
     ++ errors_of (int_ge0 lax_int "achievements" (p !! "achievements")))%list.
Proof. unfold Stats_validate. rewrite !errors_of_vapp. simpl. by rewrite <- !app_assoc. Qed.

Lemma required_EventType_rejects f v :
  v <> Some (JStr "win") -> v <> Some (JStr "participated") ->
  exists r, required_EventType f v = Invalid [(f, r)].
Proof.
  intros Hw Hp. destruct v as [[]|]; simpl; try by eexists.
  destruct (String.eqb s "win") eqn:E1.
  { apply String.eqb_eq in E1 as ->. done. }
  destruct (String.eqb s "participated") eqn:E2.
  { apply String.eqb_eq in E2 as ->. done. }
  by eexists.
Qed.

End ValidationFacts.

(** C3: an Event payload whose [type] is not the string ["win"] or
    ["participated"] fails the validation of [POST /timeline], with an error
    for the field [type], and the store is left as it was; a payload whose
    [type] is one of the two passes the check of that field, whatever its
    other fields are. *)
Theorem post_timeline_type_enum (http_url : string -> option string) (body : payload) :
  (body !! "type" <> Some (JStr "win") ->
   body !! "type" <> Some (JStr "participated") ->
   forall db, exists errs reason,
     post_timeline http_url body db = (Unprocessable errs, db)
     /\ ("type", reason) ∈ errs)
  /\ (body !! "type" = Some (JStr "win") \/ body !! "type" = Some (JStr "participated") ->
      (exists t, required_EventType "type" (body !! "type") = Valid t
                 /\ body !! "type" = Some (JStr (EventType_str t)))
      /\ forall reason, ("type", reason) ∉ errors_of (Event_validate http_url body)).
Proof.
  split.
  - intros Hw Hp db.
    destruct (required_EventType_rejects "type" _ Hw Hp) as [reason Hr].
    assert (("type", reason) ∈ errors_of (Event_validate http_url body)) as Hin.
    { rewrite Event_validate_errors, Hr. simpl. set_solver. }
    destruct (errors_of_nil_valid (Event_validate http_url body)) as [errs He];
      [by eexists|].
    exists errs, reason. unfold post_timeline, endpoint. rewrite He in *. done.
  - intros Hty. split.
    + destruct Hty as [-> | ->]; [by exists win | by exists participated].
    + intros reason. rewrite Event_validate_errors, !elem_of_app.
      assert (errors_of (required_EventType "type" (body !! "type")) = []) as ->.
      { by destruct Hty as [-> | ->]. }
      intros [H|[H|[H|[H|[H|[H|H]]]]]]; revert H.
      * apply (reports_as_other "title"); [apply required_str_reports|done].
      * apply (reports_as_other "date"); [apply required_str_reports|done].
      * apply (reports_as_other "venue"); [apply required_str_reports|done].
      * apply not_elem_of_nil.
      * apply (reports_as_other "position"); [apply optional_str_reports|done].
      * apply (reports_as_other "description"); [apply optional_str_reports|done].
      * apply (reports_as_other "photos"); [apply url_list_reports|done].
Qed.

(** C7: validation of a Stats payload rejects a negative integer in
    [patents], [team_size] or [achievements], with the error
    "greater_than_equal" for that field, and accepts zero and the positive
    integers: the field raises no error, and a payload whose three fields
    are such integers validates to them. *)
Theorem Stats_validate_non_negative (lax_int : json -> string + Z) (p : payload)
    (field : string) (n : Z) :
  field ∈ stats_fields ->
  p !! field = Some (JInt n) ->
  (n < 0 ->
     int_ge0 lax_int field (p !! field) = Invalid [(field, "greater_than_equal")]
     /\ exists errs, Stats_validate lax_int p = Invalid errs
                     /\ (field, "greater_than_equal") ∈ errs)
  /\ (0 <= n ->
      int_ge0 lax_int field (p !! field) = Valid n
      /\ forall reason, (field, reason) ∉ errors_of (Stats_validate lax_int p))
  /\ (forall a b c,
        p !! "patents" = Some (JInt a) -> p !! "team_size" = Some (JInt b) ->
        p !! "achievements" = Some (JInt c) -> 0 <= a -> 0 <= b -> 0 <= c ->
        Stats_validate lax_int p
        = Valid {| patents := a; team_size := b; achievements := c |}).
Proof.
  intros Hfield Hp. split; [|split].
  - intros Hn.
    assert (int_ge0 lax_int field (p !! field) = Invalid [(field, "greater_than_equal")])
      as Hf.
    { rewrite Hp. simpl. by rewrite (proj2 (Z.leb_gt 0 n)). }
    split; [done|].
    assert ((field, "greater_than_equal") ∈ errors_of (Stats_validate lax_int p)) as Hin.
    { rewrite Stats_validate_errors.
      unfold stats_fields in Hfield. rewrite !elem_of_cons in Hfield.
      destruct Hfield as [->|[->|[->|Hnil]]]; [..|by apply elem_of_nil in Hnil];
        rewrite Hf; simpl; set_solver. }
    destruct (errors_of_nil_valid (Stats_validate lax_int p)) as [errs He];
      [by eexists|].
    exists errs. by rewrite He in *.
  - intros Hn.
    assert (int_ge0 lax_int field (p !! field) = Valid n) as Hf.
    { rewrite Hp. simpl. by rewrite (proj2 (Z.leb_le 0 n)). }
    split; [done|]. intros reason.
    rewrite Stats_validate_errors, !elem_of_app.
    unfold stats_fields in Hfield. rewrite !elem_of_cons in Hfield.
    destruct Hfield as [->|[->|[->|Hnil]]]; [..|by apply elem_of_nil in Hnil];
      rewrite Hf; simpl; intros [H|[H|H]]; revert H;
      first [ apply not_elem_of_nil
            | (apply (reports_as_other "patents"); [apply int_ge0_reports|done])
            | (apply (reports_as_other "team_size"); [apply int_ge0_reports|done])
            | (apply (reports_as_other "achievements"); [apply int_ge0_reports|done]) ].
  - intros a b c Ha Hb Hc Ha0 Hb0 Hc0. unfold Stats_validate.
    rewrite Ha, Hb, Hc. simpl.
    by rewrite (proj2 (Z.leb_le 0 a)), (proj2 (Z.leb_le 0 b)), (proj2 (Z.leb_le 0 c)).
Qed.

(** C9: every field of [Stats] is optional and defaults to 0: a field left
    out validates to 0, and a payload that leaves out [patents], [team_size]
    and [achievements] validates to the document
    [{patents: 0, team_size: 0, achievements: 0}]. *)
Theorem Stats_validate_defaults (lax_int : json -> string + Z) (p : payload) :
  p !! "patents" = None ->
  p !! "team_size" = None ->
  p !! "achievements" = None ->
  (forall field, field ∈ stats_fields -> int_ge0 lax_int field (p !! field) = Valid 0)
  /\ exists s, Stats_validate lax_int p = Valid s
      /\ Stats_dump s
         = <["patents" := VInt 0]>
             (<["team_size" := VInt 0]> (<["achievements" := VInt 0]> ∅)).
Proof.
  intros Hp Ht Ha. split.
  - intros field Hfield. unfold stats_fields in Hfield. rewrite !elem_of_cons in Hfield.
    destruct Hfield as [->|[->|[->|Hnil]]]; [..|by apply elem_of_nil in Hnil].
    + by rewrite Hp.
    + by rewrite Ht.
    + by rewrite Ha.
  - exists {| patents := 0; team_size := 0; achievements := 0 |}.
    unfold Stats_validate. by rewrite Hp, Ht, Ha.
Qed.

Lemma post_timeline_type_enum_witness :
  (lose_body !! "type" <> Some (JStr "win")
   /\ lose_body !! "type" <> Some (JStr "participated")
   /\ exists errs reason,
       post_timeline Some lose_body (Some empty_store) = (Unprocessable errs, Some empty_store)
       /\ ("type", reason) ∈ errs)
  /\ (win_body !! "type" = Some (JStr "win")
      /\ forall reason, ("type", reason) ∉ errors_of (Event_validate Some win_body)).
Proof.
  assert (lose_body !! "type" <> Some (JStr "win")) as Hw.
  { vm_compute. discriminate. }
  assert (lose_body !! "type" <> Some (JStr "participated")) as Hp.
  { vm_compute. discriminate. }
  assert (win_body !! "type" = Some (JStr "win")) as Hwin by reflexivity.
  split.
  - split; [exact Hw|]. split; [exact Hp|].
    exact (proj1 (post_timeline_type_enum Some lose_body) Hw Hp (Some empty_store)).
  - split; [exact Hwin|].
    exact (proj2 (proj2 (post_timeline_type_enum Some win_body) (or_introl Hwin))).
Defined.

Lemma Stats_validate_non_negative_witness :
  "patents" ∈ stats_fields
  /\ negative_patents !! "patents" = Some (JInt (-1))
  /\ exists errs, Stats_validate no_lax_int negative_patents = Invalid errs
                  /\ ("patents", "greater_than_equal") ∈ errs.
Proof.
  assert ("patents" ∈ stats_fields) as Hf by apply list_elem_of_here.
  assert (negative_patents !! "patents" = Some (JInt (-1))) as Hp by reflexivity.
  split; [exact Hf|]. split; [exact Hp|].
  apply (proj1 (Stats_validate_non_negative no_lax_int negative_patents "patents" (-1) Hf Hp)).
  reflexivity.
Defined.

Lemma Stats_validate_defaults_witness :
  (∅ : payload) !! "patents" = None
  /\ (∅ : payload) !! "team_size" = None
  /\ (∅ : payload) !! "achievements" = None
  /\ exists s, Stats_validate no_lax_int ∅ = Valid s
      /\ Stats_dump s
         = <["patents" := VInt 0]>
             (<["team_size" := VInt 0]> (<["achievements" := VInt 0]> ∅)).
Proof.
  split; [reflexivity|]. split; [reflexivity|]. split; [reflexivity|].
  exact (proj2 (Stats_validate_defaults no_lax_int ∅ eq_refl eq_refl eq_refl)).
Defined.

(** ** The connectivity probe *)

(** C8: [GET /test] returns a response whatever the store: with no store
    ([db] is [None]) it reports "Available but not initialized"; when
    listing the collections raises, it reports the exception's message cut
    to its first 80 characters; and when the listing succeeds it reports the
    first 10 collection names at most. *)
Theorem test_database_never_raises (db : db_handle) (getenv : string -> option string) :
  exists response,
    test_database db getenv = Ok response
    /\ (db = None ->
        response !! "database" = Some (VStr "⚠️ Available but not initialized"))
    /\ (forall st msg, db = Some st -> fault st = Some msg ->
        response !! "database"
        = Some (VStr ("⚠️ Connected but Error: " ++ take_chars 80 msg))
        /\ (char_length (take_chars 80 msg) <= 80)%nat
        /\ exists rest, msg = take_chars 80 msg ++ rest)
    /\ (forall st, db = Some st -> fault st = None ->
        exists names,
          response !! "collections" = Some (VStrs names)
          /\ names = take 10 (map fst (map_to_list (collections st)))
          /\ (length names <= 10)%nat
          /\ response !! "database" = Some (VStr "✅ Connected & Working")).
Proof.
  destruct db as [st|]; [destruct (fault st) as [msg|] eqn:Hf|].
  - eexists. split.
    { unfold test_database, test_database_body, list_collection_names, set_item.
      run_handler. rewrite Hf. run_handler. reflexivity. }
    split; [discriminate|]. split.
    + intros st' msg' [= <-] Hf'. rewrite Hf in Hf'. injection Hf' as <-.
      split; [by rewrite lookup_insert_eq|].
      split; [apply char_length_take_chars|apply take_chars_prefix].
    + intros st' [= <-] Hf'. congruence.
  - eexists. split.
    { unfold test_database, test_database_body, list_collection_names, set_item.
      run_handler. rewrite Hf. run_handler. reflexivity. }
    split; [discriminate|]. split.
    + intros st' msg' [= <-] Hf'. congruence.
    + intros st' [= <-] _. eexists. split; [|split; [reflexivity|split]].
      * rewrite lookup_insert_ne by done. rewrite lookup_insert_ne by done.
        by rewrite lookup_insert_eq.
      * rewrite length_take. lia.
      * by rewrite lookup_insert_eq.
  - eexists. split; [reflexivity|]. split.
    + intros _. reflexivity.
    + split; intros; discriminate.
Qed.

Lemma test_database_never_raises_witness :
  exists response,
    test_database (Some faulty_store) (fun _ => None) = Ok response
    /\ response !! "database"
       = Some (VStr "⚠️ Connected but Error: ServerSelectionTimeoutError: localhost:27017: [Errno 111] Connection refused, Ti").
Proof.
  destruct (test_database_never_raises (Some faulty_store) (fun _ => None))
    as (response & Hrun & _ & Hfault & _).
  exists response. split; [exact Hrun|].
  exact (proj1 (Hfault faulty_store long_message eq_refl eq_refl)).
Defined.

(** * Further properties of the handlers and models *)

(** ** Serialization *)

Lemma to_serializable_no_internal_id (py_repr : string -> string) (d : doc) :
  to_serializable py_repr d !! "_id" = None.
Proof.
  unfold to_serializable. case_bool_decide as He; [by rewrite He|].
  destruct (d !! "_id") eqn:Hid; [|done].
  rewrite lookup_insert_ne by done. apply lookup_delete_eq.
Qed.

(** X1: serializing twice is serializing once: a document that went through
    [to_serializable] is left as it is by a second pass. *)
Theorem to_serializable_idempotent (py_repr : string -> string) (d : doc) :
  to_serializable py_repr (to_serializable py_repr d) = to_serializable py_repr d.
Proof.
  pose proof (to_serializable_no_internal_id py_repr d) as Hno.
  unfold to_serializable at 1. case_bool_decide; [done|]. by rewrite Hno.
Qed.

(** X2: the keys of a serialized document: ["_id"] is replaced by ["id"] when
    it was there, and the set of keys is unchanged otherwise; it never holds
    ["_id"]. *)
Theorem to_serializable_keys (py_repr : string -> string) (d : doc) :
  ("_id" ∉ dom (to_serializable py_repr d))
  /\ dom (to_serializable py_repr d)
     = if decide ("_id" ∈ dom d) then {["id"]} ∪ (dom d ∖ {["_id"]}) else dom d.
Proof.
  split.
  - rewrite elem_of_dom, to_serializable_no_internal_id. by intros [? ?].
  - unfold to_serializable. destruct (decide ("_id" ∈ dom d)) as [Hin|Hin].
    + apply elem_of_dom in Hin as [v Hv].
      rewrite bool_decide_eq_false_2.
      * rewrite Hv. by rewrite dom_insert_L, dom_delete_L.
      * intros ->. by rewrite lookup_empty in Hv.
    + apply not_elem_of_dom in Hin. rewrite Hin. by case_bool_decide.
Qed.

(** ** Reads *)

(** X3: no read route ever changes the store, whether the handle is absent,
    the store throws, or the read succeeds. *)
Theorem reads_leave_store_unchanged (py_repr : string -> string) (db : db_handle) :
  (get_organization py_repr db).2 = db
  /\ (get_stats py_repr db).2 = db
  /\ (list_events py_repr db).2 = db
  /\ (list_team py_repr db).2 = db.
Proof. by destruct db. Qed.

(** X4: a read route answers only without a handle: whenever [GET /timeline]
    or [GET /team] returns a list, [db] is [None] and the list is empty, and
    whenever [GET /content/organization] or [GET /content/stats] returns,
    [db] is [None] and the answer is null.  No stored document is ever
    returned. *)
Theorem reads_answer_only_without_handle (py_repr : string -> string) (db : db_handle) :
  (forall res, (list_events py_repr db).1 = Ok res -> db = None /\ res = [])
  /\ (forall res, (list_team py_repr db).1 = Ok res -> db = None /\ res = [])
  /\ (forall d, (get_organization py_repr db).1 = Ok d -> db = None /\ d = None)
  /\ (forall d, (get_stats py_repr db).1 = Ok d -> db = None /\ d = None).
Proof.
  destruct db as [st|].
  - repeat split; discriminate.
  - repeat split; by injection H as <-.
Qed.

Lemma reads_answer_only_without_handle_witness :
  (list_events id None).1 = Ok [] /\ (None : db_handle) = None /\ ([] : list doc) = [].
Proof.
  assert ((list_events id None).1 = Ok []) as H by reflexivity.
  split; [exact H|].
  exact (proj1 (reads_answer_only_without_handle id None) [] H).
Defined.

(** X25: like the other two reads, [GET /content/stats] and [GET /team]
    raise at the truth test [if db] on every handle that exists, whatever the
    store holds, and leave the store as it was. *)
Theorem get_stats_and_list_team_raise_on_present_handle (py_repr : string -> string)
    (st : Store) :
  get_stats py_repr (Some st)
  = (Raise (NotImplementedError database_bool_message), Some st)
  /\ list_team py_repr (Some st)
     = (Raise (NotImplementedError database_bool_message), Some st).
Proof. split; reflexivity. Qed.

(** ** The sort of the timeline *)

(** X23: the sort [list_events] applies, [sorted] by the key [date] in
    reverse, on documents dated by strings: it returns the same documents, no
    document followed by one of a greater [date] under plain string
    comparison; a document dated ["2023-11-01"] stands before one dated
    ["2023-09-01"]. *)
Theorem timeline_sort_descending (docs : list doc) :
  Forall str_dated docs ->
  exists r,
    sorted_reverse date_key docs = Ok r
    /\ r ≡ₚ docs
    /\ (forall i j a b, (i < j)%nat -> r !! i = Some a -> r !! j = Some b ->
          str_lt (date_str a) (date_str b) = false)
    /\ (forall i j a b, r !! i = Some a -> r !! j = Some b ->
          a !! "date" = Some (VStr "2023-11-01") ->
          b !! "date" = Some (VStr "2023-09-01") -> (i < j)%nat).
Proof.
  intros Hdocs.
  destruct (sorted_events_str_dated docs Hdocs) as (r & Hrun & Hperm & Hsort & _).
  exists r. split; [done|]. split; [done|].
  assert (forall i j a b, (i < j)%nat -> r !! i = Some a -> r !! j = Some b ->
            str_lt (date_str a) (date_str b) = false) as Hord.
  { intros i j a b. by apply (StronglySorted_lookup date_desc). }
  split; [exact Hord|].
  intros i j a b Hi Hj Ha Hb.
  destruct (decide (i < j)%nat) as [|Hge]; [done|]. exfalso.
  destruct (decide (i = j)) as [->|Hne].
  - rewrite Hi in Hj. injection Hj as ->. rewrite Ha in Hb. discriminate.
  - assert (j < i)%nat as Hlt by lia.
    specialize (Hord j i b a Hlt Hj Hi). unfold date_str in Hord.
    rewrite Ha, Hb in Hord. vm_compute in Hord. discriminate.
Qed.

Lemma timeline_sort_descending_witness :
  Forall str_dated sample_events
  /\ exists r,
      sorted_reverse date_key sample_events = Ok r
      /\ r ≡ₚ sample_events
      /\ (forall i j a b, (i < j)%nat -> r !! i = Some a -> r !! j = Some b ->
            str_lt (date_str a) (date_str b) = false)
      /\ (forall i j a b, r !! i = Some a -> r !! j = Some b ->
            a !! "date" = Some (VStr "2023-11-01") ->
            b !! "date" = Some (VStr "2023-09-01") -> (i < j)%nat).
Proof.
  split; [exact sample_events_str_dated|].
  exact (timeline_sort_descending sample_events sample_events_str_dated).
Defined.

(** X24: the same sort keys a document without [date] by the empty string,
    so it stands after every document whose [date] is a non-empty string;
    and documents of equal key keep the relative order they came in. *)
Theorem timeline_sort_undated_last_and_stable (docs : list doc) :
  Forall str_dated docs ->
  (forall d : doc, d !! "date" = None -> date_key d = VStr "")
  /\ exists r,
      sorted_reverse date_key docs = Ok r
      /\ (forall i j a b s, r !! i = Some a -> r !! j = Some b ->
            a !! "date" = None -> b !! "date" = Some (VStr s) -> s <> "" ->
            (j < i)%nat)
      /\ (forall s, filter (fun d => date_str d = s) r
                    = filter (fun d => date_str d = s) docs).
Proof.
  intros Hdocs. split.
  { intros d Hd. unfold date_key. by rewrite Hd. }
  destruct (sorted_events_str_dated docs Hdocs) as (r & Hrun & _ & Hsort & Hstab).
  exists r. split; [done|]. split; [|done].
  intros i j a b s Hi Hj Ha Hb Hs.
  destruct (decide (j < i)%nat) as [|Hge]; [done|]. exfalso.
  destruct (decide (i = j)) as [->|Hne].
  - rewrite Hi in Hj. injection Hj as ->. rewrite Ha in Hb. discriminate.
  - assert (i < j)%nat as Hlt by lia.
    pose proof (StronglySorted_lookup date_desc r Hsort i j a b Hlt Hi Hj) as Hord.
    unfold date_desc, date_str in Hord. rewrite Ha, Hb in Hord.
    by rewrite str_lt_empty_l in Hord.
Qed.

Lemma timeline_sort_undated_last_and_stable_witness :
  Forall str_dated undated_events
  /\ exists r,
      sorted_reverse date_key undated_events = Ok r
      /\ (forall i j a b s, r !! i = Some a -> r !! j = Some b ->
            a !! "date" = None -> b !! "date" = Some (VStr s) -> s <> "" ->
            (j < i)%nat)
      /\ (forall s, filter (fun d => date_str d = s) r
                    = filter (fun d => date_str d = s) undated_events).
Proof.
  split; [exact undated_events_str_dated|].
  exact (proj2 (timeline_sort_undated_last_and_stable undated_events
                  undated_events_str_dated)).
Defined.

(** ** Writes on a store that answers *)

Lemma collection_store_insert_same (st : Store) (name : string) (data : doc) :
  collection (store_insert st name data) name
  = (collection st name ++ [<["_id" := VOid (fresh_oid st)]> data])%list.
Proof. by rewrite collection_store_insert, decide_True. Qed.

Lemma collection_store_insert_other (st : Store) (name name' : string) (data : doc) :
  name <> name' -> collection (store_insert st name data) name' = collection st name'.
Proof. intros Hne. by rewrite collection_store_insert, decide_False. Qed.

(** X6: on a store that answers, [POST /timeline]'s handler stores the event
    in the collection ["event"] and nowhere else: that collection is what it
    was with one document appended, which carries every field of the input
    and the identifier the handler returns; every other collection is as it
    was. *)
Theorem create_event_stores_event (db : db_handle) (st : Store) (event : Event) :
  healthy db st ->
  exists new_id st' stored,
    create_event event db = (Ok (<["id" := VStr new_id]> ∅), Some st')
    /\ collection st' "event" = (collection st "event" ++ [stored])%list
    /\ doc_id stored = Some new_id
    /\ (forall k, k <> "_id" -> stored !! k = Event_dump event !! k)
    /\ (forall name, name <> "event" -> collection st' name = collection st name).
Proof.
  intros [-> Hf].
  exists (oid_hex (fresh_oid st)), (store_insert st "event" (Event_dump event)),
    (<["_id" := VOid (fresh_oid st)]> (Event_dump event)).
  split; [|split; [|split; [|split]]].
  - unfold create_event. run_handler. by rewrite create_document_run.
  - apply collection_store_insert_same.
  - apply doc_id_stored.
  - intros k Hk. by rewrite lookup_insert_ne.
  - intros name Hname. by apply collection_store_insert_other.
Qed.

Lemma create_event_stores_event_witness :
  healthy (Some sample_store) sample_store
  /\ exists new_id st' stored,
      create_event sample_event (Some sample_store) = (Ok (<["id" := VStr new_id]> ∅), Some st')
      /\ collection st' "event" = (collection sample_store "event" ++ [stored])%list
      /\ doc_id stored = Some new_id
      /\ (forall k, k <> "_id" -> stored !! k = Event_dump sample_event !! k)
      /\ (forall name, name <> "event" -> collection st' name = collection sample_store name).
Proof.
  split; [exact sample_store_healthy|].
  exact (create_event_stores_event (Some sample_store) sample_store sample_event
           sample_store_healthy).
Defined.

(** X7: on a store that answers, [POST /contact]'s handler acknowledges with
    the new identifier and the status ["received"], and stores the
    submission in the collection ["contactsubmission"] and nowhere else: that
    collection is what it was with one document appended, which carries every
    field of the input and the identifier returned; every other collection
    is as it was. *)
Theorem submit_contact_stores_submission (db : db_handle) (st : Store)
    (data : ContactSubmission) :
  healthy db st ->
  exists new_id st' stored,
    submit_contact data db
    = (Ok (<["id" := VStr new_id]> (<["status" := VStr "received"]> ∅)), Some st')
    /\ collection st' "contactsubmission"
       = (collection st "contactsubmission" ++ [stored])%list
    /\ doc_id stored = Some new_id
    /\ (forall k, k <> "_id" -> stored !! k = ContactSubmission_dump data !! k)
    /\ (forall name, name <> "contactsubmission" ->
          collection st' name = collection st name).
Proof.
  intros [-> Hf].
  exists (oid_hex (fresh_oid st)),
    (store_insert st "contactsubmission" (ContactSubmission_dump data)),
    (<["_id" := VOid (fresh_oid st)]> (ContactSubmission_dump data)).
  split; [|split; [|split; [|split]]].
  - unfold submit_contact. run_handler. by rewrite create_document_run.
  - apply collection_store_insert_same.
  - apply doc_id_stored.
  - intros k Hk. by rewrite lookup_insert_ne.
  - intros name Hname. by apply collection_store_insert_other.
Qed.

Lemma submit_contact_stores_submission_witness :
  healthy (Some sample_store) sample_store
  /\ exists new_id st' stored,
      submit_contact sample_contact (Some sample_store)
      = (Ok (<["id" := VStr new_id]> (<["status" := VStr "received"]> ∅)), Some st')
      /\ collection st' "contactsubmission"
         = (collection sample_store "contactsubmission" ++ [stored])%list
      /\ doc_id stored = Some new_id
      /\ (forall k, k <> "_id" -> stored !! k = ContactSubmission_dump sample_contact !! k)
      /\ (forall name, name <> "contactsubmission" ->
            collection st' name = collection sample_store name).
Proof.
  split; [exact sample_store_healthy|].
  exact (submit_contact_stores_submission (Some sample_store) sample_store sample_contact
           sample_store_healthy).
Defined.

(** ** The connectivity probe, field by field *)

Lemma test_database_absent (getenv : string -> option string) :
  test_database None getenv
  = Ok (<["database" := VStr "⚠️ Available but not initialized"]> initial_response).
Proof. reflexivity. Qed.

Lemma test_database_faulty (st : Store) (msg : string) (getenv : string -> option string) :
  fault st = Some msg ->
  test_database (Some st) getenv
  = Ok (<["database" := VStr ("⚠️ Connected but Error: " ++ take_chars 80 msg)]>
        (<["database_name" := env_flag (getenv "DATABASE_NAME")]>
        (<["database_url" := env_flag (getenv "DATABASE_URL")]>
        (<["database" := VStr "✅ Available"]> initial_response)))).
Proof.
  intros Hf. unfold test_database, test_database_body, list_collection_names, set_item.
  run_handler. rewrite Hf. run_handler. reflexivity.
Qed.

Lemma test_database_healthy (st : Store) (getenv : string -> option string) :
  fault st = None ->
  test_database (Some st) getenv
  = Ok (<["database" := VStr "✅ Connected & Working"]>
        (<["connection_status" := VStr "Connected"]>
        (<["collections" := VStrs (take 10 (map fst (map_to_list (collections st))))]>
        (<["database_name" := env_flag (getenv "DATABASE_NAME")]>
        (<["database_url" := env_flag (getenv "DATABASE_URL")]>
        (<["database" := VStr "✅ Available"]> initial_response)))))).
Proof.
  intros Hf. unfold test_database, test_database_body, list_collection_names, set_item.
  run_handler. rewrite Hf. run_handler. reflexivity.
Qed.

Ltac probe_cases db getenv :=
  let st := fresh "st" in let msg := fresh "msg" in let Hf := fresh "Hf" in
  destruct db as [st|];
  [ destruct (fault st) as [msg|] eqn:Hf;
    [ rewrite (test_database_faulty st msg getenv Hf)
    | rewrite (test_database_healthy st getenv Hf) ]
  | rewrite (test_database_absent getenv) ];
  eexists; (split; [reflexivity|]).

Ltac probe_lookup :=
  unfold initial_response;
  repeat first [ rewrite lookup_insert_eq | rewrite lookup_insert_ne by done ].

(** X9: the response of [GET /test] always has the same six keys, and
    ["backend"] is always "Running", whatever the store and the
    environment. *)
Theorem test_database_response_shape (db : db_handle) (getenv : string -> option string) :
  exists response,
    test_database db getenv = Ok response
    /\ dom response = response_keys
    /\ response !! "backend" = Some (VStr "✅ Running").
Proof.
  probe_cases db getenv; (split; [|by probe_lookup]);
    unfold initial_response, response_keys; rewrite !dom_insert_L, dom_empty_L;
    set_solver.
Qed.

Lemma truthy_env_set (v : option string) :
  truthy_env v = true <-> exists s, v = Some s /\ s <> "".
Proof.
  destruct v as [s|]; simpl.
  - rewrite negb_true_iff. split.
    + intros Hs. exists s. split; [done|]. by apply String.eqb_neq.
    + intros (s' & [= <-] & Hs). by apply String.eqb_neq.
  - split; [done|]. by intros (s & ? & _).
Qed.

(** X10: [GET /test] reports the two configuration variables only when a
    handle exists: then ["database_url"] is "Set" exactly when
    [DATABASE_URL] is set to a non-empty string (likewise ["database_name"]
    and [DATABASE_NAME]), and "Not Set" otherwise; with no handle both stay
    null even if the variables are set. *)
Theorem test_database_reports_environment (db : db_handle)
    (getenv : string -> option string) :
  exists response,
    test_database db getenv = Ok response
    /\ (forall st, db = Some st ->
          (response !! "database_url" = Some (VStr "✅ Set")
           <-> exists s, getenv "DATABASE_URL" = Some s /\ s <> "")
          /\ (response !! "database_name" = Some (VStr "✅ Set")
              <-> exists s, getenv "DATABASE_NAME" = Some s /\ s <> "")
          /\ (response !! "database_url" = Some (VStr "✅ Set")
              \/ response !! "database_url" = Some (VStr "❌ Not Set"))
          /\ (response !! "database_name" = Some (VStr "✅ Set")
              \/ response !! "database_name" = Some (VStr "❌ Not Set")))
    /\ (db = None ->
          response !! "database_url" = Some VNull
          /\ response !! "database_name" = Some VNull).
Proof.
  probe_cases db getenv; (split; [|intros; by probe_lookup]).
  - intros ? _. probe_lookup. unfold env_flag. rewrite <- !truthy_env_set.
    destruct (truthy_env (getenv "DATABASE_URL")),
      (truthy_env (getenv "DATABASE_NAME")); naive_solver.
  - intros ? _. probe_lookup. unfold env_flag. rewrite <- !truthy_env_set.
    destruct (truthy_env (getenv "DATABASE_URL")),
      (truthy_env (getenv "DATABASE_NAME")); naive_solver.
  - intros ? [=].
Qed.

(** X11: ["connection_status"] is "Connected" exactly when a handle exists
    and listing the collections succeeded; in every other case it stays
    "Not Connected" and ["collections"] stays empty. *)
Theorem test_database_connection_status (db : db_handle)
    (getenv : string -> option string) :
  exists response,
    test_database db getenv = Ok response
    /\ (response !! "connection_status" = Some (VStr "Connected")
        <-> exists st, db = Some st /\ fault st = None)
    /\ (response !! "connection_status" <> Some (VStr "Connected") ->
        response !! "connection_status" = Some (VStr "Not Connected")
        /\ response !! "collections" = Some (VStrs [])).
Proof.
  probe_cases db getenv; probe_lookup.
  - split; [|done]. split; [done|]. intros (st' & [= <-] & Hf'). congruence.
  - split; [|done]. split; [|done]. intros _. by exists st.
  - split; [|done]. split; [done|]. by intros (st' & ? & _).
Qed.

Lemma take_chars_all : forall (s : string) (n : nat),
  (char_length s <= n)%nat -> take_chars n s = s.
Proof.
  induction s as [|c s IH]; intros n Hn; simpl in *; [done|].
  destruct (is_continuation c).
  - by rewrite IH.
  - destruct n as [|n]; [lia|]. rewrite IH; [done|lia].
Qed.

(** X12: when listing the collections raises with a message of at most 80
    characters, [GET /test] reports the message whole. *)
Theorem test_database_short_message (st : Store) (msg : string)
    (getenv : string -> option string) :
  fault st = Some msg ->
  (char_length msg <= 80)%nat ->
  exists response,
    test_database (Some st) getenv = Ok response
    /\ response !! "database" = Some (VStr ("⚠️ Connected but Error: " ++ msg)).
Proof.
  intros Hf Hlen. rewrite (test_database_faulty st msg getenv Hf).
  eexists. split; [reflexivity|]. rewrite lookup_insert_eq.
  by rewrite take_chars_all.
Qed.

Lemma test_database_short_message_witness :
  fault refused_store = Some "connection refused: café"
  /\ (char_length "connection refused: café" <= 80)%nat
  /\ exists response,
      test_database (Some refused_store) (fun _ => None) = Ok response
      /\ response !! "database"
         = Some (VStr "⚠️ Connected but Error: connection refused: café").
Proof.
  assert (char_length "connection refused: café" <= 80)%nat as Hlen.
  { vm_compute. lia. }
  split; [reflexivity|]. split; [exact Hlen|].
  exact (test_database_short_message refused_store "connection refused: café"
           (fun _ => None) eq_refl Hlen).
Defined.

(** ** The models, beyond the claims *)

Lemma vapp_valid_inv {A B} (f : validated (A -> B)) (x : validated A) (b : B) :
  f <*> x = Valid b -> exists g a, f = Valid g /\ x = Valid a /\ b = g a.
Proof. destruct f as [g|], x as [a|]; simpl; try done. intros [= <-]. by exists g, a. Qed.

Ltac invert_valid H :=
  repeat match type of H with
  | _ <*> _ = Valid _ =>
      let g := fresh "g" in let a := fresh "a" in
      let Hx := fresh "Hfield" in let Hb := fresh "Hb" in
      apply vapp_valid_inv in H as (g & a & H & Hx & Hb)
  end.

Lemma int_ge0_valid (lax_int : json -> string + Z) (f : string) (v : option json) (n : Z) :
  int_ge0 lax_int f v = Valid n -> 0 <= n.
Proof.
  unfold int_ge0. destruct v as [j|]; [|by intros [= <-]].
  destruct (match j with JInt n => inr n | _ => lax_int j end) as [r|m]; [done|].
  destruct (0 <=? m) eqn:Hm; [|done]. intros [= <-]. by apply Z.leb_le.
Qed.

(** X13: every Stats that passes validation has non-negative [patents],
    [team_size] and [achievements], also when a value was converted from an
    input that is not a JSON integer. *)
Theorem Stats_validate_invariant (lax_int : json -> string + Z) (p : payload) (s : Stats) :
  Stats_validate lax_int p = Valid s ->
  0 <= patents s /\ 0 <= team_size s /\ 0 <= achievements s.
Proof.
  unfold Stats_validate. intros H. invert_valid H. injection H as <-. subst. simpl.
  repeat split; eapply int_ge0_valid; eassumption.
Qed.

Lemma Stats_validate_invariant_witness :
  Stats_validate no_lax_int three_patents
  = Valid {| patents := 3; team_size := 0; achievements := 0 |}
  /\ 0 <= 3 /\ 0 <= 0 /\ 0 <= 0.
Proof.
  assert (Stats_validate no_lax_int three_patents
          = Valid {| patents := 3; team_size := 0; achievements := 0 |}) as H
    by reflexivity.
  split; [exact H|].
  exact (Stats_validate_invariant no_lax_int three_patents _ H).
Defined.

(** X14: dump and validate is the identity on Stats with non-negative
    fields: the JSON of [model_dump()] validates to the same Stats. *)
Theorem Stats_dump_validate (lax_int : json -> string + Z) (s : Stats) :
  0 <= patents s -> 0 <= team_size s -> 0 <= achievements s ->
  Stats_validate lax_int (json_of <$> Stats_dump s) = Valid s.
Proof.
  intros Hp Ht Ha. destruct s as [a b c]. simpl in *.
  unfold Stats_validate, Stats_dump. simpl. rewrite !fmap_insert, fmap_empty. simpl.
  repeat first [ rewrite lookup_insert_eq | rewrite lookup_insert_ne by done ].
  simpl.
  by rewrite (proj2 (Z.leb_le 0 a)), (proj2 (Z.leb_le 0 b)), (proj2 (Z.leb_le 0 c)).
Qed.

Lemma Stats_dump_validate_witness :
  Stats_validate no_lax_int
    (json_of <$> Stats_dump {| patents := 0; team_size := 8; achievements := 12 |})
  = Valid {| patents := 0; team_size := 8; achievements := 12 |}.
Proof.
  apply (Stats_dump_validate no_lax_int
           {| patents := 0; team_size := 8; achievements := 12 |}); simpl; lia.
Defined.

Lemma url_list_fixed (http_url : string -> option string) (f : string) (l : list string) :
  Forall (fun u => http_url u = Some u) l ->
  url_list http_url f (Some (JArr (JStr <$> l))) = Valid l.
Proof.
  unfold url_list. induction 1 as [|u l Hu Hl IH]; [done|].
  rewrite fmap_cons. simpl. rewrite Hu. simpl in IH |- *. by rewrite IH.
Qed.

(** X15: dump and validate is the identity on Events whose photo URLs are
    already in the form the URL type gives them: the JSON of [model_dump()]
    validates to the same Event. *)
Theorem Event_dump_validate (http_url : string -> option string) (e : Event) :
  Forall (fun u => http_url u = Some u) (photos e) ->
  Event_validate http_url (json_of <$> Event_dump e) = Valid e.
Proof.
  intros Hphotos. destruct e as [t d v ty pos desc ph]. simpl in *.
  unfold Event_validate, Event_dump. simpl. rewrite !fmap_insert, fmap_empty.
  repeat first [ rewrite lookup_insert_eq | rewrite lookup_insert_ne by done ].
  cbn [json_of]. rewrite (url_list_fixed http_url "photos" ph Hphotos).
  destruct ty, pos, desc; reflexivity.
Qed.

Lemma Event_dump_validate_witness :
  Forall (fun u => Some u = Some u) (photos sample_event)
  /\ Event_validate Some (json_of <$> Event_dump sample_event) = Valid sample_event.
Proof.
  assert (Forall (fun u : string => Some u = Some u) (photos sample_event)) as H.
  { apply Forall_cons_2; [reflexivity|apply Forall_nil_2]. }
  split; [exact H|]. exact (Event_dump_validate Some sample_event H).
Defined.

(** X16: a field that is not one of the model's is ignored: adding it to the
    body, or changing it, changes neither the validation of an Event nor
    what [POST /timeline] does. *)
Theorem Event_validate_ignores_unknown (http_url : string -> option string)
    (body : payload) (k : string) (v : json) :
  k ∉ event_fields ->
  Event_validate http_url (<[k := v]> body) = Event_validate http_url body
  /\ forall db, post_timeline http_url (<[k := v]> body) db = post_timeline http_url body db.
Proof.
  intros Hk. unfold event_fields in Hk. rewrite !not_elem_of_cons in Hk.
  destruct Hk as (H1 & H2 & H3 & H4 & H5 & H6 & H7 & _).
  assert (Event_validate http_url (<[k := v]> body) = Event_validate http_url body) as He.
  { unfold Event_validate. by rewrite !lookup_insert_ne. }
  split; [done|]. intros db. unfold post_timeline, endpoint. by rewrite He.
Qed.

Lemma Event_validate_ignores_unknown_witness :
  ("is_admin" ∉ event_fields)
  /\ Event_validate Some (<["is_admin" := JBool true]> win_body) = Event_validate Some win_body.
Proof.
  assert ("is_admin" ∉ event_fields) as Hk.
  { unfold event_fields. rewrite !not_elem_of_cons. repeat split; try discriminate.
    apply not_elem_of_nil. }
  split; [exact Hk|].
  exact (proj1 (Event_validate_ignores_unknown Some win_body "is_admin" (JBool true) Hk)).
Defined.

(** X17: a body that lacks [title], [date], [venue] or [type] is rejected by
    [POST /timeline] with the error "missing" for that field, whatever the
    other fields are, and the store is left as it was. *)
Theorem post_timeline_missing_required (http_url : string -> option string)
    (body : payload) (db : db_handle) (field : string) :
  field ∈ event_required ->
  body !! field = None ->
  exists errs,
    post_timeline http_url body db = (Unprocessable errs, db)
    /\ (field, "missing") ∈ errs.
Proof.
  intros Hfield Hnone.
  assert ((field, "missing") ∈ errors_of (Event_validate http_url body)) as Hin.
  { rewrite Event_validate_errors.
    unfold event_required in Hfield. rewrite !elem_of_cons in Hfield.
    destruct Hfield as [->|[->|[->|[->|Hnil]]]]; [..|by apply elem_of_nil in Hnil];
      rewrite Hnone; simpl; set_solver. }
  destruct (errors_of_nil_valid (Event_validate http_url body)) as [errs He];
    [by eexists|].
  exists errs. unfold post_timeline, endpoint. by rewrite He in *.
Qed.

Lemma post_timeline_missing_required_witness :
  "date" ∈ event_required
  /\ win_body !! "date" = None
  /\ exists errs,
      post_timeline Some win_body (Some empty_store) = (Unprocessable errs, Some empty_store)
      /\ ("date", "missing") ∈ errs.
Proof.
  assert ("date" ∈ event_required) as Hf.
  { apply list_elem_of_further, list_elem_of_here. }
  assert (win_body !! "date" = None) as Hn by reflexivity.
  split; [exact Hf|]. split; [exact Hn|].
  exact (post_timeline_missing_required Some win_body (Some empty_store) "date" Hf Hn).
Defined.

Lemma required_str_valid (f : string) (v : option json) (s : string) :
  required_str f v = Valid s -> v = Some (JStr s).
Proof. destruct v as [[]|]; simpl; try done. by intros [= <-]. Qed.

Lemma required_EventType_valid (f : string) (v : option json) (t : EventType) :
  required_EventType f v = Valid t -> v = Some (JStr (EventType_str t)).
Proof.
  destruct v as [[]|]; simpl; try done.
  destruct (String.eqb s "win") eqn:E1.
  { apply String.eqb_eq in E1 as ->. by intros [= <-]. }
  destruct (String.eqb s "participated") eqn:E2; [|done].
  apply String.eqb_eq in E2 as ->. by intros [= <-].
Qed.

(** X18: a validated Event holds what the body held: its [title], [date]
    and [venue] are the strings of the body, unchanged, and its [type] is
    the body's. *)
Theorem Event_validate_keeps_fields (http_url : string -> option string)
    (body : payload) (e : Event) :
  Event_validate http_url body = Valid e ->
  body !! "title" = Some (JStr (title e))
  /\ body !! "date" = Some (JStr (date e))
  /\ body !! "venue" = Some (JStr (venue e))
  /\ body !! "type" = Some (JStr (EventType_str (type e))).
Proof.
  unfold Event_validate. intros H. invert_valid H. injection H as <-. subst. simpl.
  repeat split;
    first [ by apply (required_str_valid "title")
          | by apply (required_str_valid "date")
          | by apply (required_str_valid "venue")
          | by apply (required_EventType_valid "type") ].
Qed.

Lemma Event_validate_keeps_fields_witness :
  Event_validate Some (json_of <$> Event_dump sample_event) = Valid sample_event
  /\ (json_of <$> Event_dump sample_event) !! "date" = Some (JStr "2023-12-19").
Proof.
  assert (Event_validate Some (json_of <$> Event_dump sample_event) = Valid sample_event)
    as H by reflexivity.
  split; [exact H|].
  exact (proj1 (proj2 (Event_validate_keeps_fields Some _ sample_event H))).
Defined.

Section MemberFacts.

Context (http_url : string -> option string) (email_str : string -> option string).

Lemma TeamMember_validate_errors (p : payload) :
  errors_of (TeamMember_validate http_url email_str p)
  = (errors_of (required_str "name" (p !! "name"))
     ++ errors_of (required_str "role" (p !! "role"))
     ++ errors_of (optional_str "nickname" (p !! "nickname"))
     ++ errors_of (optional_str "bio" (p !! "bio"))
     ++ errors_of (str_list "skills" (p !! "skills"))
     ++ errors_of (optional_email email_str "email" (p !! "email"))
     ++ errors_of (optional_str "phone" (p !! "phone"))
     ++ errors_of (optional_url http_url "photo_url" (p !! "photo_url"))
     ++ errors_of (optional_url http_url "instagram" (p !! "instagram"))
     ++ errors_of (optional_url http_url "linkedin" (p !! "linkedin"))
     ++ errors_of (optional_url http_url "github" (p !! "github")))%list.
Proof.
  unfold TeamMember_validate. rewrite !errors_of_vapp. simpl. by rewrite <- !app_assoc.
Qed.

Lemma ContactSubmission_validate_errors (p : payload) :
  errors_of (ContactSubmission_validate email_str p)
  = (errors_of (required_str "name" (p !! "name"))
     ++ errors_of (required_email email_str "email" (p !! "email"))
     ++ errors_of (required_str "subject" (p !! "subject"))
     ++ errors_of (required_str "message" (p !! "message"))
     ++ errors_of (optional_str "company" (p !! "company")))%list.
Proof.
  unfold ContactSubmission_validate. rewrite !errors_of_vapp. simpl.
  by rewrite <- !app_assoc.
Qed.

End MemberFacts.

(** X19: a TeamMember body whose [email] is a string that is not an e-mail
    address is rejected by [POST /team] with an error naming [email],
    whatever the other fields are, and nothing is stored. *)
Theorem post_team_invalid_email (http_url email_str : string -> option string)
    (body : payload) (db : db_handle) (s : string) :
  body !! "email" = Some (JStr s) ->
  email_str s = None ->
  exists errs,
    post_team http_url email_str body db = (Unprocessable errs, db)
    /\ ("email", "value_error") ∈ errs.
Proof.
  intros Hbody Hs.
  assert (("email", "value_error")
            ∈ errors_of (TeamMember_validate http_url email_str body)) as Hin.
  { rewrite TeamMember_validate_errors, Hbody. simpl. rewrite Hs. simpl. set_solver. }
  destruct (errors_of_nil_valid (TeamMember_validate http_url email_str body))
    as [errs He]; [by eexists|].
  exists errs. unfold post_team, endpoint. by rewrite He in *.
Qed.

Lemma post_team_invalid_email_witness :
  bad_email_body !! "email" = Some (JStr "ravi.example.com")
  /\ has_at "ravi.example.com" = None
  /\ exists errs,
      post_team Some has_at bad_email_body (Some empty_store)
      = (Unprocessable errs, Some empty_store)
      /\ ("email", "value_error") ∈ errs.
Proof.
  split; [reflexivity|]. split; [reflexivity|].
  exact (post_team_invalid_email Some has_at bad_email_body (Some empty_store)
           "ravi.example.com" eq_refl eq_refl).
Defined.

(** X20: a TeamMember body with only [name] and [role] validates: the list
    [skills] defaults to empty and every other field to null. *)
Theorem TeamMember_validate_defaults (http_url email_str : string -> option string)
    (body : payload) (n r : string) :
  body !! "name" = Some (JStr n) ->
  body !! "role" = Some (JStr r) ->
  (forall f, f ∈ ["nickname"; "bio"; "skills"; "email"; "phone"; "photo_url";
                  "instagram"; "linkedin"; "github"] -> body !! f = None) ->
  TeamMember_validate http_url email_str body
  = Valid {| name := n; role := r; nickname := None; bio := None; skills := [];
             email := None; phone := None; photo_url := None; instagram := None;
             linkedin := None; github := None |}.
Proof.
  intros Hn Hr Hrest. unfold TeamMember_validate. rewrite Hn, Hr.
  rewrite !Hrest by set_solver. reflexivity.
Qed.

Lemma TeamMember_validate_defaults_witness :
  TeamMember_validate Some has_at minimal_member_body
  = Valid {| name := "Ravi"; role := "Lead"; nickname := None; bio := None; skills := [];
             email := None; phone := None; photo_url := None; instagram := None;
             linkedin := None; github := None |}.
Proof.
  apply (TeamMember_validate_defaults Some has_at minimal_member_body "Ravi" "Lead").
  - reflexivity.
  - reflexivity.
  - intros f Hf. rewrite !elem_of_cons in Hf.
    destruct Hf as [->|[->|[->|[->|[->|[->|[->|[->|[->|Hnil]]]]]]]]];
      [reflexivity..|by apply elem_of_nil in Hnil].
Defined.

(** X21: on a store that answers, [POST /team] with a valid body replies
    with the new identifier and stores the member in the collection
    ["teammember"] and nowhere else: that collection is what it was, in the
    same order, with one document appended, which carries the fields of the
    validated body and the identifier returned; every other collection is as
    it was. *)
Theorem post_team_stores_member (http_url email_str : string -> option string)
    (db : db_handle) (st : Store) (body : payload) (member : TeamMember) :
  healthy db st ->
  TeamMember_validate http_url email_str body = Valid member ->
  exists new_id st' stored,
    post_team http_url email_str body db = (Reply (<["id" := VStr new_id]> ∅), Some st')
    /\ collection st' "teammember" = (collection st "teammember" ++ [stored])%list
    /\ doc_id stored = Some new_id
    /\ (forall k, k <> "_id" -> stored !! k = TeamMember_dump member !! k)
    /\ (forall name, name <> "teammember" -> collection st' name = collection st name).
Proof.
  intros [-> Hf] Hvalid.
  exists (oid_hex (fresh_oid st)), (store_insert st "teammember" (TeamMember_dump member)),
    (<["_id" := VOid (fresh_oid st)]> (TeamMember_dump member)).
  split; [|split; [|split; [|split]]].
  - unfold post_team, endpoint. rewrite Hvalid. unfold create_member. run_handler.
    by rewrite create_document_run.
  - apply collection_store_insert_same.
  - apply doc_id_stored.
  - intros k Hk. by rewrite lookup_insert_ne.
  - intros name Hname. by apply collection_store_insert_other.
Qed.

Lemma post_team_stores_member_witness :
  healthy (Some empty_store) empty_store
  /\ TeamMember_validate Some has_at minimal_member_body = Valid minimal_member
  /\ exists new_id st' stored,
      post_team Some has_at minimal_member_body (Some empty_store)
      = (Reply (<["id" := VStr new_id]> ∅), Some st')
      /\ collection st' "teammember" = (collection empty_store "teammember" ++ [stored])%list
      /\ doc_id stored = Some new_id
      /\ (forall k, k <> "_id" -> stored !! k = TeamMember_dump minimal_member !! k)
      /\ (forall name, name <> "teammember" ->
            collection st' name = collection empty_store name).
Proof.
  assert (healthy (Some empty_store) empty_store) as Hdb by (split; reflexivity).
  assert (TeamMember_validate Some has_at minimal_member_body = Valid minimal_member)
    as Hvalid by reflexivity.
  split; [exact Hdb|]. split; [exact Hvalid|].
  exact (post_team_stores_member Some has_at (Some empty_store) empty_store
           minimal_member_body minimal_member Hdb Hvalid).
Defined.

(** X22: a ContactSubmission body that lacks [name], [email], [subject] or
    [message] is rejected by [POST /contact] with the error "missing" for
    that field, and nothing is stored. *)
Theorem post_contact_missing_required (email_str : string -> option string)
    (body : payload) (db : db_handle) (field : string) :
  field ∈ ["name"; "email"; "subject"; "message"] ->
  body !! field = None ->
  exists errs,
    post_contact email_str body db = (Unprocessable errs, db)
    /\ (field, "missing") ∈ errs.
Proof.
  intros Hfield Hnone.
  assert ((field, "missing") ∈ errors_of (ContactSubmission_validate email_str body))
    as Hin.
  { rewrite ContactSubmission_validate_errors. rewrite !elem_of_cons in Hfield.
    destruct Hfield as [->|[->|[->|[->|Hnil]]]]; [..|by apply elem_of_nil in Hnil];
      rewrite Hnone; simpl; set_solver. }
  destruct (errors_of_nil_valid (ContactSubmission_validate email_str body))
    as [errs He]; [by eexists|].
  exists errs. unfold post_contact, endpoint. by rewrite He in *.
Qed.

Lemma post_contact_missing_required_witness :
  "email" ∈ ["name"; "email"; "subject"; "message"]
  /\ minimal_member_body !! "email" = None
  /\ exists errs,
      post_contact has_at minimal_member_body (Some empty_store)
      = (Unprocessable errs, Some empty_store)
      /\ ("email", "missing") ∈ errs.
Proof.
  assert ("email" ∈ ["name"; "email"; "subject"; "message"]) as Hf.
  { apply list_elem_of_further, list_elem_of_here. }
  split; [exact Hf|]. split; [reflexivity|].
  exact (post_contact_missing_required has_at minimal_member_body (Some empty_store)
           "email" Hf eq_refl).
Defined.
